(** * Country scraper (main.py): the numeric normaliser, the record extractor
      and the orchestrator, embedded in Rocq.

    Python values are modelled as the program has them: a [str] is a sequence of
    Unicode code points, [None] is [option]'s [None], an [int] is a [Z], a raised
    exception is the [Raised] alternative of [result].  The built-ins main.py
    calls ([str.strip], [str.isdigit], [float], [int], list slicing) are
    modelled after CPython 3.11, whose Unicode tables (Unicode 14.0) give the
    character classes below. *)

From Stdlib Require Import String Ascii ZArith List Bool Lia.
From Stdlib Require Import Sorted Permutation.
Import ListNotations.
Open Scope Z_scope.

(** ** Python built-ins *)

Module Py.

(** A character is its code point; a string is the list of its characters. *)
Definition char := Z.
Definition str := list char.

(** An ASCII literal of the source, as a Python string. *)
Fixpoint lit (s : string) : str :=
  match s with
  | EmptyString => []
  | String a s' => Z.of_N (N_of_ascii a) :: lit s'
  end.

Inductive exn :=
| ValueError | OverflowError | OperationalError | RequestException.

Inductive result (A : Type) :=
| Returned (a : A)
| Raised (e : exn).
Arguments Returned {A} a.
Arguments Raised {A} e.

Definition exn_eqb (e1 e2 : exn) : bool :=
  match e1, e2 with
  | ValueError, ValueError | OverflowError, OverflowError
  | OperationalError, OperationalError
  | RequestException, RequestException => true
  | _, _ => false
  end.

(** [try: body / except E: handler]. *)
Definition try_except {A} (body : result A) (E : exn) (handler : result A)
  : result A :=
  match body with
  | Returned a => Returned a
  | Raised e => if exn_eqb e E then handler else Raised e
  end.

Definition in_range (c : char) (r : Z * Z) : bool :=
  (fst r <=? c) && (c <=? snd r).

Definition in_ranges (c : char) (rs : list (Z * Z)) : bool :=
  existsb (in_range c) rs.

(** Characters [str.strip()] removes (Py_UNICODE_ISSPACE). *)
Definition space_ranges : list (Z * Z) :=
  [(9, 13); (28, 32); (133, 133); (160, 160); (5760, 5760); (8192, 8202);
   (8232, 8233); (8239, 8239); (8287, 8287); (12288, 12288)].

Definition isspace (c : char) : bool := in_ranges c space_ranges.

(** Characters of Unicode category Nd: the ones [int] reads as decimal digits.
    Every range starts at a digit zero and counts upwards, ten by ten. *)
Definition decimal_ranges : list (Z * Z) :=
  [(48, 57); (1632, 1641); (1776, 1785); (1984, 1993); (2406, 2415);
   (2534, 2543); (2662, 2671); (2790, 2799); (2918, 2927); (3046, 3055);
   (3174, 3183); (3302, 3311); (3430, 3439); (3558, 3567); (3664, 3673);
   (3792, 3801); (3872, 3881); (4160, 4169); (4240, 4249); (6112, 6121);
   (6160, 6169); (6470, 6479); (6608, 6617); (6784, 6793); (6800, 6809);
   (6992, 7001); (7088, 7097); (7232, 7241); (7248, 7257); (42528, 42537);
   (43216, 43225); (43264, 43273); (43472, 43481); (43504, 43513);
   (43600, 43609); (44016, 44025); (65296, 65305); (66720, 66729);
   (68912, 68921); (69734, 69743); (69872, 69881); (69942, 69951);
   (70096, 70105); (70384, 70393); (70736, 70745); (70864, 70873);
   (71248, 71257); (71360, 71369); (71472, 71481); (71904, 71913);
   (72016, 72025); (72784, 72793); (73040, 73049); (73120, 73129);
   (92768, 92777); (92864, 92873); (93008, 93017); (120782, 120831);
   (123200, 123209); (123632, 123641); (125264, 125273); (130032, 130041)].

(** Characters with a digit value that are not decimal digits (superscripts,
    subscripts, circled digits and the like): [str.isdigit] accepts them,
    [int] does not. *)
Definition other_digit_ranges : list (Z * Z) :=
  [(178, 179); (185, 185); (4969, 4977); (6618, 6618); (8304, 8304);
   (8308, 8313); (8320, 8329); (9312, 9320); (9332, 9340); (9352, 9360);
   (9450, 9450); (9461, 9469); (9471, 9471); (10102, 10110); (10112, 10120);
   (10122, 10130); (68160, 68163); (69216, 69224); (69714, 69722);
   (127232, 127242)].

Definition isdecimal (c : char) : bool := in_ranges c decimal_ranges.

(** [ch.isdigit()] on a one-character string. *)
Definition isdigit (c : char) : bool :=
  isdecimal c || in_ranges c other_digit_ranges.

(** The value of a decimal digit character. *)
Definition to_decimal (c : char) : option Z :=
  match find (in_range c) decimal_ranges with
  | Some r => Some ((c - fst r) mod 10)
  | None => None
  end.

Fixpoint lstrip (s : str) : str :=
  match s with
  | [] => []
  | c :: s' => if isspace c then lstrip s' else s
  end.

Definition rstrip (s : str) : str := rev (lstrip (rev s)).

(** [s.strip()]. *)
Definition strip (s : str) : str := rstrip (lstrip s).

(** [ch in allowed] for a one-character [ch]. *)
Definition contains (allowed : str) (ch : char) : bool :=
  existsb (Z.eqb ch) allowed.

(** Slice [l[:stop]]: a negative [stop] counts from the end. *)
Definition slice_to {A} (l : list A) (stop : Z) : list A :=
  let n := Z.of_nat (length l) in
  let stop' := if stop <? 0 then Z.max (n + stop) 0 else Z.min stop n in
  firstn (Z.to_nat stop') l.

(** *** Floating point

    A [float] holds an IEEE 754 binary64 number.  The normaliser only builds
    floats from unsigned literals, so the model carries the non-negative
    finite values [m * 2^q] and infinity. *)
Inductive float :=
| Finite (m q : Z)
| Infinity.

Definition prec : Z := 53.
Definition emin : Z := -1074.
Definition emax : Z := 1024.

(** [n / (d * 2^q)] as a fraction of integers, for any sign of [q]. *)
Definition scale (n d q : Z) : Z * Z :=
  if 0 <=? q then (n, d * 2 ^ q) else (n * 2 ^ (- q), d).

(** [floor (log2 (n / d))] for positive [n] and [d]. *)
Definition ilog2 (n d : Z) : Z :=
  let e := Z.log2 n - Z.log2 d in
  let '(a, b) := scale n d e in
  if b <=? a then e else e - 1.

(** The integer nearest to [a / b], ties to the even one. *)
Definition round_half_even (a b : Z) : Z :=
  let m := a / b in
  let r := a mod b in
  match 2 * r ?= b with
  | Lt => m
  | Gt => m + 1
  | Eq => if Z.even m then m else m + 1
  end.

(** The binary64 number nearest to [n / d] (round to nearest, ties to even;
    infinity from [2^1024 - 2^970] on). *)
Definition round_binary64 (n d : Z) : float :=
  if n <=? 0 then Finite 0 0 else
  let q := Z.max (ilog2 n d - (prec - 1)) emin in
  let '(a, b) := scale n d q in
  let m := round_half_even a b in
  if 2 ^ emax <=? Z.shiftl m q then Infinity else Finite m q.

Definition is_ascii_digit (c : char) : bool := (48 <=? c) && (c <=? 57).

Fixpoint span (p : char -> bool) (s : str) : str * str :=
  match s with
  | [] => ([], [])
  | c :: s' =>
      if p c then let '(a, b) := span p s' in (c :: a, b) else ([], s)
  end.

(** The number written by a string of ASCII digits. *)
Definition digits_value (ds : str) : Z :=
  fold_left (fun acc c => 10 * acc + (c - 48)) ds 0.

(** A float literal [digits [. digits] [e digits]] with at least one mantissa
    digit: its mantissa digits read as one integer, the number of digits after
    the point, and the exponent. *)
Definition parse_float (s : str) : option (Z * Z * Z) :=
  let '(ip, r1) := span is_ascii_digit s in
  let '(fp, r2) :=
    match r1 with
    | c :: r => if c =? 46 then span is_ascii_digit r else ([], r1)
    | [] => ([], [])
    end in
  match ip ++ fp with
  | [] => None
  | _ :: _ =>
      let mant := digits_value (ip ++ fp) in
      let flen := Z.of_nat (length fp) in
      match r2 with
      | [] => Some (mant, flen, 0)
      | c :: r =>
          if (c =? 101) || (c =? 69) then
            match span is_ascii_digit r with
            | ((_ :: _) as ep, []) => Some (mant, flen, digits_value ep)
            | _ => None
            end
          else None
      end
  end.

(** [float(s)] for the strings the normaliser passes: characters of
    "0123456789.eE" only.  (Signs, underscores, blanks, the words inf and nan
    and non-ASCII digits, which the built-in also reads, cannot occur there.)
    The literal [mant * 10^(e - flen)] is rounded correctly. *)
Definition float_ (s : str) : result float :=
  match parse_float s with
  | None => Raised ValueError
  | Some (mant, flen, e) =>
      let k := e - flen in
      Returned (if 0 <=? k then round_binary64 (mant * 10 ^ k) 1
                else round_binary64 mant (10 ^ (- k)))
  end.

(** [int(x)] for a float: truncation; infinity raises OverflowError. *)
Definition int_of_float (x : float) : result Z :=
  match x with
  | Finite m q => Returned (Z.shiftl m q)
  | Infinity => Raised OverflowError
  end.

(** The default of [sys.get_int_max_str_digits()]. *)
Definition int_max_str_digits : Z := 4300.

Fixpoint decimal_value (acc : Z) (s : str) : option Z :=
  match s with
  | [] => Some acc
  | c :: s' =>
      match to_decimal c with
      | Some d => decimal_value (10 * acc + d) s'
      | None => None
      end
  end.

(** [int(s)] for the strings the normaliser passes: no sign, blank or
    underscore.  Every character must be a decimal digit, and there may be at
    most [int_max_str_digits] of them. *)
Definition int_ (s : str) : result Z :=
  match s with
  | [] => Raised ValueError
  | _ :: _ =>
      match decimal_value 0 s with
      | None => Raised ValueError
      | Some v =>
          if int_max_str_digits <? Z.of_nat (length s) then Raised ValueError
          else Returned v
      end
  end.

End Py.

Import Py.

(** ** Numeric normaliser (main.py, lines 64-79) *)

Definition allowed : str := lit "0123456789.eE".

Definition to_int_from_text (value_text : option str) : result (option Z) :=
  match value_text with
  | None => Returned None
  | Some value_text =>
      let text := strip value_text in
      let cleaned := filter (contains allowed) text in
      match cleaned with
      | [] => Returned None
      | _ :: _ =>
          try_except
            (match float_ cleaned with
             | Returned x =>
                 match int_of_float x with
                 | Returned z => Returned (Some z)
                 | Raised e => Raised e
                 end
             | Raised e => Raised e
             end)
            ValueError
            (let digits_only := filter isdigit text in
             match digits_only with
             | [] => Returned None
             | _ :: _ =>
                 match int_ digits_only with
                 | Returned z => Returned (Some z)
                 | Raised e => Raised e
                 end
             end)
      end
  end.

(** ** The parsed document (BeautifulSoup)

    A parsed page is a tree of tags and text.  A tag carries its name and the
    list of its classes; the selectors of main.py look at nothing else. *)

Module Soup.

#[warnings="-register-all"]
Inductive node :=
| Text (s : str)
| Tag (name : string) (classes : list string) (contents : list node).

(** [tag.name]. *)
Definition name (n : node) : string :=
  match n with
  | Tag nm _ _ => nm
  | Text _ => ""
  end.

(** Everything below a node, in document order (the node itself excluded). *)
Fixpoint descendants (n : node) : list node :=
  match n with
  | Text _ => []
  | Tag _ _ cs => flat_map (fun c => c :: descendants c) cs
  end.

(** A CSS selector [tag.class] or [.class]. *)
Record selector := { sel_tag : option string; sel_class : string }.

Definition matches (sel : selector) (n : node) : bool :=
  match n with
  | Text _ => false
  | Tag nm cls _ =>
      match sel_tag sel with
      | Some t => String.eqb t nm
      | None => true
      end && existsb (String.eqb (sel_class sel)) cls
  end.

(** [tag.select(sel)]: the matching descendants, in document order. *)
Definition select (n : node) (sel : selector) : list node :=
  filter (matches sel) (descendants n).

(** [tag.select_one(sel)]: the first of them, or None. *)
Definition select_one (n : node) (sel : selector) : option node :=
  hd_error (select n sel).

(** The text pieces below a node, in document order. *)
Fixpoint strings (n : node) : list str :=
  match n with
  | Text s => [s]
  | Tag _ _ cs => flat_map strings cs
  end.

(** [tag.get_text()]. *)
Definition get_text (n : node) : str := concat (strings n).

Definition nonempty {A} (l : list A) : bool :=
  match l with
  | [] => false
  | _ :: _ => true
  end.

(** [tag.get_text(strip=True)]: every piece stripped, the empty ones dropped. *)
Definition get_text_strip (n : node) : str :=
  concat (filter nonempty (map strip (strings n))).

End Soup.

Import Soup.

(** ** Record extractor (main.py, lines 82-129) *)

Record CountryRecord := {
  country_name : str;
  capital : option str;
  population : option Z;
  area : option Z
}.

Definition div_country : selector :=
  {| sel_tag := Some "div"%string; sel_class := "country" |}.
Definition h3_country_name : selector :=
  {| sel_tag := Some "h3"%string; sel_class := "country-name" |}.
Definition by_class (c : string) : selector :=
  {| sel_tag := None; sel_class := c |}.

(** [tag and tag.get_text(strip=True)] as the condition of an [if]. *)
Definition has_text (tag : option node) : bool :=
  match tag with
  | Some t => nonempty (get_text_strip t)
  | None => false
  end.

(** [x or ""] and [x or None] on an optional string. *)
Definition or_empty (x : option str) : str :=
  match x with
  | Some ((_ :: _) as s) => s
  | _ => []
  end.
Definition or_None (x : option str) : option str :=
  match x with
  | Some ((_ :: _) as s) => Some s
  | _ => None
  end.

Definition bind {A B} (r : result A) (k : A -> result B) : result B :=
  match r with
  | Returned a => k a
  | Raised e => Raised e
  end.

Notation "x <- c ;; k" := (bind c (fun x => k))
  (at level 61, c at next level, right associativity).

(** The body of the loop: the record built from one card. *)
Definition extract_record (card : node) : result CountryRecord :=
  let name_tag := select_one card (by_class "country-name") in
  let name :=
    if has_text name_tag then option_map get_text_strip name_tag
    else if String.eqb (Soup.name card) "h3" then Some (get_text_strip card)
    else None in
  let cap_tag := select_one card (by_class "country-capital") in
  let capital :=
    if has_text cap_tag then option_map get_text_strip cap_tag else None in
  let pop_tag := select_one card (by_class "country-population") in
  population <-
    (if has_text pop_tag then to_int_from_text (option_map get_text pop_tag)
     else Returned None) ;;
  let area_tag := select_one card (by_class "country-area") in
  area <-
    (if has_text area_tag then to_int_from_text (option_map get_text area_tag)
     else Returned None) ;;
  Returned {| country_name := or_empty name;
              capital := or_None capital;
              population := population;
              area := area |}.

(** The [for] loop: [data] grows by one record per card; an exception leaves
    the loop and the function. *)
Fixpoint for_cards (cards : list node) (data : list CountryRecord)
  : result (list CountryRecord) :=
  match cards with
  | [] => Returned data
  | card :: rest =>
      r <- extract_record card ;;
      for_cards rest (data ++ [r])
  end.

(** The cards the loop visits: the [div.country] blocks, or the
    [h3.country-name] headers when there is no such block. *)
Definition country_cards (soup : node) : list node :=
  let cards := select soup div_country in
  if nonempty cards then cards else select soup h3_country_name.

Definition scrape_countries_data (soup : option node) (limit : Z)
  : result (list CountryRecord) :=
  match soup with
  | None => Returned []
  | Some soup => for_cards (slice_to (country_cards soup) limit) []
  end.

(** ** The store and the orchestrator (main.py, lines 24-46 and 132-187)

    The database file holds the table of stored rows, when it exists, and the
    AUTOINCREMENT counter of the table.  A connection works on its own view of
    the file, which [commit] writes back. *)

Module Store.

Record row := { id : Z; fields : CountryRecord }.

Record table := { rows : list row; seq : Z }.

Record database := {
  openable : bool;        (* sqlite3.connect succeeds *)
  writable : bool;        (* statements that write succeed *)
  countries : option table
}.

Definition with_table (d : database) (t : option table) : database :=
  {| openable := openable d; writable := writable d; countries := t |}.

(** What a run prints. *)
Inductive line :=
| Line (s : string)
| ErrorLine (s : string) (e : exn)
| RowLine (r : row)
| TotalLine (total : option Z).

Record world := {
  disk : database;
  conn : option database;   (* the view of the open connection, if any *)
  console : list line
}.

(** Computations that read and change the world and may raise. *)
Definition M (A : Type) : Type := world -> result A * world.

Definition ret {A} (a : A) : M A := fun w => (Returned a, w).
Definition raise {A} (e : exn) : M A := fun w => (Raised e, w).
Definition mbind {A B} (c : M A) (k : A -> M B) : M B :=
  fun w =>
    match c w with
    | (Returned a, w') => k a w'
    | (Raised e, w') => (Raised e, w')
    end.
Definition lift {A} (r : result A) : M A := fun w => (r, w).

(** [try: body / except Exception as e: handler e]. *)
Definition try_catch {A} (body : M A) (handler : exn -> M A) : M A :=
  fun w =>
    match body w with
    | (Returned a, w') => (Returned a, w')
    | (Raised e, w') => handler e w'
    end.

(** [try: body / finally: fin]. *)
Definition finally {A} (body : M A) (fin : M unit) : M A :=
  fun w =>
    match body w with
    | (r, w') =>
        match fin w' with
        | (Returned _, w'') => (r, w'')
        | (Raised e, w'') => (Raised e, w'')
        end
    end.

End Store.

Import Store.

Notation "x <~ c ;; k" := (mbind c (fun x => k))
  (at level 61, c at next level, right associativity).
Notation "c ;;; k" := (mbind c (fun _ => k))
  (at level 61, right associativity).

Definition print (l : line) : M unit :=
  fun w => (Returned tt,
            {| disk := disk w; conn := conn w; console := console w ++ [l] |}).

(** [sqlite3.connect(db_name)]. *)
Definition connect : M unit :=
  fun w =>
    if openable (disk w)
    then (Returned tt,
          {| disk := disk w; conn := Some (disk w); console := console w |})
    else (Raised OperationalError, w).

(** [cur.execute(stmt)]: the statement works on the connection's view, or
    raises and leaves it as it was. *)
Definition execute (stmt : database -> result database) : M unit :=
  fun w =>
    match conn w with
    | None => (Raised OperationalError, w)
    | Some v =>
        match stmt v with
        | Returned v' =>
            (Returned tt,
             {| disk := disk w; conn := Some v'; console := console w |})
        | Raised e => (Raised e, w)
        end
    end.

(** A statement that writes the table needs a writable database. *)
Definition write_table (v : database) (t : table) : result database :=
  if writable v then Returned (with_table v (Some t))
  else Raised OperationalError.

Definition commit : M unit :=
  fun w =>
    match conn w with
    | None => (Raised OperationalError, w)
    | Some v =>
        (Returned tt, {| disk := v; conn := Some v; console := console w |})
    end.

Definition close : M unit :=
  fun w => (Returned tt,
            {| disk := disk w; conn := None; console := console w |}).

(** CREATE TABLE IF NOT EXISTS countries (...). *)
Definition create_table (v : database) : result database :=
  match countries v with
  | Some _ => Returned v
  | None => write_table v {| rows := []; seq := 0 |}
  end.

(** DELETE FROM countries: the rows go, the AUTOINCREMENT counter stays. *)
Definition delete_all (v : database) : result database :=
  match countries v with
  | Some t => write_table v {| rows := []; seq := seq t |}
  | None => Raised OperationalError
  end.

Definition init_db : M unit :=
  connect ;;;
  try_catch
    (execute create_table ;;;
     execute delete_all ;;;
     commit)
    (fun e =>
       print (ErrorLine "Error initializing/clearing database:" e) ;;;
       close ;;;
       raise e).

(** [requests.get] and the parser are the outside world: [response] is the
    parsed page, or [None] when the request raised. *)
Definition fetch_and_parse (response : option node) : M (option node) :=
  match response with
  | Some soup => ret (Some soup)
  | None =>
      print (ErrorLine "Error fetching web page:" RequestException) ;;;
      ret None
  end.

(** One INSERT: the row gets the next identifier. *)
Definition insert_row (t : table) (r : CountryRecord) : table :=
  let i := Z.max (seq t) (fold_right Z.max 0 (map id (rows t))) + 1 in
  {| rows := rows t ++ [{| id := i; fields := r |}]; seq := i |}.

(** INSERT INTO countries (...) VALUES (?, ?, ?, ?), once per record. *)
Definition insert_all (records : list CountryRecord) (v : database)
  : result database :=
  match countries v with
  | Some t => write_table v (fold_left insert_row records t)
  | None => Raised OperationalError
  end.

Definition save_batch (records : list CountryRecord) : M unit :=
  try_catch
    (execute (insert_all records) ;;;
     commit)
    (fun e =>
       print (ErrorLine "Error during batch insertion:" e) ;;;
       raise e).

(** ORDER BY id. *)
Fixpoint insert_by_id (r : row) (l : list row) : list row :=
  match l with
  | [] => [r]
  | r' :: l' => if id r <=? id r' then r :: l else r' :: insert_by_id r l'
  end.
Definition order_by_id (l : list row) : list row :=
  fold_right insert_by_id [] l.

(** SUM(population): NULL when no row has a population. *)
Definition sum_population (l : list row) : option Z :=
  fold_left
    (fun acc r =>
       match population (fields r), acc with
       | Some p, Some a => Some (a + p)
       | Some p, None => Some p
       | None, _ => acc
       end) l None.

Fixpoint print_all (ls : list line) : M unit :=
  match ls with
  | [] => ret tt
  | l :: ls' => print l ;;; print_all ls'
  end.

(** A SELECT returns the rows the connection sees. *)
Definition fetch_rows : M (list row) :=
  fun w =>
    match conn w with
    | Some v =>
        match countries v with
        | Some t => (Returned (rows t), w)
        | None => (Raised OperationalError, w)
        end
    | None => (Raised OperationalError, w)
    end.

Definition report : M unit :=
  try_catch
    (print (Line "Scraping and saving completed successfully.") ;;;
     rs <~ fetch_rows ;;
     print (Line "--- First 5 Records ---") ;;;
     print_all (map RowLine (firstn 5 (order_by_id rs))) ;;;
     rs' <~ fetch_rows ;;
     print (Line "--------------------") ;;;
     print (TotalLine (sum_population rs')))
    (fun e =>
       print (ErrorLine "Error during reporting:" e) ;;;
       raise e).

Definition halt_fetch : line :=
  Line "Could not access website or content retrieval failed. Program halted.".
Definition halt_empty : line :=
  Line "No data found to save. Program halted.".

(** [main()].  The local [conn] is set exactly when [init_db] returned, and
    [init_db] closes the connection itself when it raises: the [finally] block
    closes the connection whenever one is open. *)
Definition main (response : option node) : M unit :=
  finally
    (try_catch
       (init_db ;;;
        soup <~ fetch_and_parse response ;;
        match soup with
        | None => print halt_fetch
        | Some _ =>
            records <~ lift (scrape_countries_data soup 20) ;;
            match records with
            | [] => print halt_empty
            | _ :: _ =>
                save_batch records ;;;
                report
            end
        end)
       (fun _ => ret tt))
    (fun w => match conn w with
              | Some _ => close w
              | None => (Returned tt, w)
              end).

(** A run of the job on a database file. *)
Definition run (d : database) (response : option node) : world :=
  snd (main response {| disk := d; conn := None; console := [] |}).

(** * Vocabulary of the properties *)

Ltac bool_to_Z :=
  rewrite ?orb_true_iff, ?andb_true_iff, ?Z.eqb_eq, ?Z.leb_le, ?Z.ltb_lt in *.

(** No range of [rs1] meets a range of [rs2]. *)
Definition ranges_apart (rs1 rs2 : list (Z * Z)) : bool :=
  forallb (fun r1 =>
    forallb (fun r2 => (snd r1 <? fst r2) || (snd r2 <? fst r1)) rs2) rs1.

(** What [to_int_from_text] does once [cleaned] and [digits_only] are known. *)
Definition normalise (cleaned digits_only : str) : result (option Z) :=
  match cleaned with
  | [] => Returned None
  | _ :: _ =>
      try_except
        (x <- float_ cleaned ;; z <- int_of_float x ;; Returned (Some z))
        ValueError
        (match digits_only with
         | [] => Returned None
         | _ :: _ => z <- int_ digits_only ;; Returned (Some z)
         end)
  end.

(** An integer that a binary64 float holds exactly: at most 53 significant
    bits, below [2^1024]. *)
Definition binary64_integer (n : Z) : Prop :=
  exists m k, n = m * 2 ^ k /\ 0 <= m < 2 ^ 53 /\ 0 <= k /\ n < 2 ^ 1024.

(** A text without '.', 'e' and 'E' that holds at least one ASCII digit. *)
Definition plain_integer_text (s : str) : bool :=
  forallb (fun c => negb (contains (lit ".eE") c)) s &&
  nonempty (filter is_ascii_digit s).

(** The integer formed by the ASCII digits of a text, in order. *)
Definition digits_of (s : str) : Z := digits_value (filter is_ascii_digit s).

(** [spaced s s']: [s'] is [s] with space characters inserted. *)
Inductive spaced : str -> str -> Prop :=
| spaced_nil : spaced [] []
| spaced_keep c s s' : spaced s s' -> spaced (c :: s) (c :: s')
| spaced_insert s s' : spaced s s' -> spaced s (32 :: s').

(** [extracts card r]: the loop body builds [r] from [card]. *)
Definition extracts (card : node) (r : CountryRecord) : Prop :=
  extract_record card = Returned r.

(** The cards the loop visits. *)
Definition visited (soup : node) (limit : Z) : list node :=
  slice_to (country_cards soup) limit.

Definition block (contents : list node) : node :=
  Tag "div" ["country"%string] contents.

Definition two_blocks : node := Tag "[document]" [] [block []; block []].

(** A block as the page has them. *)
Definition andorra : node :=
  Tag "div" ["col-md-4"%string; "country"%string]
    [Tag "h3" ["country-name"%string]
       [Tag "i" ["flag-icon"%string; "flag-icon-ad"%string] [];
        Text (lit "   Andorra   ")];
     Tag "div" ["country-info"%string]
       [Tag "strong" [] [Text (lit "Capital:")]; Text (lit " ");
        Tag "span" ["country-capital"%string] [Text (lit "Andorra la Vella")];
        Tag "br" [] [];
        Tag "strong" [] [Text (lit "Population:")]; Text (lit " ");
        Tag "span" ["country-population"%string] [Text (lit "84000")];
        Tag "br" [] [];
        Tag "strong" [] [Text (lit "Area (km"); Tag "sup" [] [Text (lit "2")];
                         Text (lit "):")];
        Text (lit " ");
        Tag "span" ["country-area"%string] [Text (lit "468.0")];
        Tag "br" [] []]].

Definition andorra_record : CountryRecord :=
  {| country_name := lit "Andorra";
     capital := Some (lit "Andorra la Vella");
     population := Some 84000;
     area := Some 468 |}.

(** [absent card c]: the card has no sub-element of class [c]. *)
Definition absent (card : node) (c : string) : Prop :=
  select_one card (by_class c) = None.

Definition blank_record : CountryRecord :=
  {| country_name := []; capital := None; population := None; area := None |}.

Definition lone_header : node :=
  Tag "[document]" [] [Tag "h3" ["country-name"%string] [Text (lit "Andorra")]].

Definition overflowing_page : node :=
  Tag "[document]" []
    [block [Tag "span" ["country-population"%string] [Text (lit "1e999")]]].

Definition fetch_error : line :=
  ErrorLine "Error fetching web page:" RequestException.

Definition stocked : database :=
  {| openable := true; writable := true;
     countries :=
       Some {| rows := [{| id := 1;
                           fields := {| country_name := lit "Andorra";
                                        capital := Some (lit "Andorra la Vella");
                                        population := Some 84000;
                                        area := Some 468 |} |}];
               seq := 1 |} |}.

(** ** Vocabulary of the further properties *)

(** The table [init_db] leaves: no row, the counter kept. *)
Definition cleared (d : database) : database :=
  with_table d
    (Some {| rows := [];
             seq := match countries d with Some t => seq t | None => 0 end |}).

(** The largest identifier the table has used or holds. *)
Definition high_water (t : table) : Z :=
  Z.max (seq t) (fold_right Z.max 0 (map id (rows t))).

(** The records numbered upwards from [base + 1]. *)
Fixpoint number (base : Z) (records : list CountryRecord) : list row :=
  match records with
  | [] => []
  | r :: records' =>
      {| id := base + 1; fields := r |} :: number (base + 1) records'
  end.



(** What [report] prints for the rows [rs]. *)
Definition report_lines (rs : list row) : list line :=
  [Line "Scraping and saving completed successfully.";
   Line "--- First 5 Records ---"] ++
  map RowLine (firstn 5 (order_by_id rs)) ++
  [Line "--------------------"; TotalLine (sum_population rs)].

Definition init_error : line :=
  ErrorLine "Error initializing/clearing database:" OperationalError.


Definition say (w : world) (ls : list line) : world :=
  {| disk := disk w; conn := conn w; console := console w ++ ls |}.

(** A string without a blank at either end. *)
Definition trimmed (s : str) : Prop :=
  match s with
  | [] => True
  | c :: _ => isspace c = false /\ isspace (last s 0) = false
  end.

(** * Properties *)

(** ** Character classes *)

Lemma in_ranges_apart (c : char) (rs1 rs2 : list (Z * Z)) :
  ranges_apart rs1 rs2 = true ->
  in_ranges c rs1 = true -> in_ranges c rs2 = false.
Proof.
  unfold ranges_apart, in_ranges. intros Hapart H1.
  apply existsb_exists in H1 as (r1 & Hin1 & Hc1).
  rewrite forallb_forall in Hapart. specialize (Hapart r1 Hin1).
  rewrite forallb_forall in Hapart.
  destruct (existsb (in_range c) rs2) eqn:H2; [|reflexivity].
  apply existsb_exists in H2 as (r2 & Hin2 & Hc2).
  specialize (Hapart r2 Hin2). unfold in_range in *.
  bool_to_Z. lia.
Qed.

Lemma contains_allowed (c : char) :
  contains allowed c =
  is_ascii_digit c || contains (lit ".eE") c.
Proof.
  apply eq_true_iff_eq. unfold contains, allowed, is_ascii_digit. cbn.
  bool_to_Z. lia.
Qed.

Lemma isspace_not_allowed (c : char) :
  isspace c = true -> contains allowed c = false.
Proof.
  intros H. destruct (contains allowed c) eqn:E; [|reflexivity].
  revert H E. unfold isspace, in_ranges, in_range, contains, allowed. cbn.
  intros H E. bool_to_Z. lia.
Qed.

Lemma isspace_not_digit (c : char) : isspace c = true -> isdigit c = false.
Proof.
  intros H. unfold isdigit, isdecimal.
  rewrite (in_ranges_apart c space_ranges decimal_ranges),
          (in_ranges_apart c space_ranges other_digit_ranges);
    auto; now vm_compute.
Qed.

(** ** Stripping and filtering *)

Section Filter.

Variable p : char -> bool.
Hypothesis p_space : forall c, isspace c = true -> p c = false.

Lemma filter_lstrip (s : str) : filter p (lstrip s) = filter p s.
Proof.
  induction s as [|c s IH]; cbn [lstrip]; [reflexivity|].
  destruct (isspace c) eqn:E; [|reflexivity].
  cbn [filter]. now rewrite (p_space c E).
Qed.

Lemma filter_strip (s : str) : filter p (strip s) = filter p s.
Proof.
  unfold strip, rstrip.
  now rewrite filter_rev, filter_lstrip, <- filter_rev, rev_involutive,
    filter_lstrip.
Qed.

End Filter.

(** The result is a function of the retained characters and of the digit
    characters of the input. *)
Lemma to_int_from_text_filters (s : str) :
  to_int_from_text (Some s) =
  normalise (filter (contains allowed) s) (filter isdigit s).
Proof.
  unfold to_int_from_text, normalise.
  rewrite (filter_strip _ isspace_not_allowed),
          (filter_strip _ isspace_not_digit).
  destruct (filter (contains allowed) s); [reflexivity|].
  unfold bind. destruct (float_ (c :: l)) as [x|e]; [|reflexivity].
  destruct (int_of_float x); reflexivity.
Qed.

(** ** Rounding to binary64 *)

Lemma scale_nonneg (n d q a b : Z) :
  0 <= n -> 0 <= d -> scale n d q = (a, b) -> 0 <= a /\ 0 <= b.
Proof.
  unfold scale. intros Hn Hd H.
  destruct (0 <=? q); injection H as <- <-; split; try assumption;
    apply Z.mul_nonneg_nonneg; try assumption; apply Z.pow_nonneg; lia.
Qed.

Lemma round_half_even_nonneg (a b : Z) :
  0 <= a -> 0 <= b -> 0 <= round_half_even a b.
Proof.
  intros Ha Hb. unfold round_half_even.
  pose proof (Z_div_nonneg_nonneg a b Ha Hb).
  destruct (2 * (a mod b) ?= b); [destruct (Z.even (a / b))| |]; lia.
Qed.

Lemma round_binary64_nonneg (n d m q : Z) :
  0 <= d -> round_binary64 n d = Finite m q -> 0 <= m.
Proof.
  unfold round_binary64. intros Hd.
  destruct (n <=? 0) eqn:Hn; [intros [= <- _]; lia|].
  apply Z.leb_gt in Hn.
  destruct (scale n d _) as [a b] eqn:Hs.
  apply scale_nonneg in Hs as [Ha Hb]; try lia.
  destruct (2 ^ emax <=? _); [discriminate|].
  intros [= <- _]. now apply round_half_even_nonneg.
Qed.

Lemma ilog2_integer (n : Z) : 0 < n -> ilog2 n 1 = Z.log2 n.
Proof.
  intros Hn. unfold ilog2, scale. change (Z.log2 1) with 0.
  rewrite Z.sub_0_r.
  pose proof (Z.log2_nonneg n) as Hl.
  destruct (0 <=? Z.log2 n) eqn:E; [|apply Z.leb_gt in E; lia].
  pose proof (Z.log2_spec n Hn) as [Hlo _].
  destruct (1 * 2 ^ Z.log2 n <=? n) eqn:E'; [reflexivity|].
  apply Z.leb_gt in E'. lia.
Qed.

Lemma binary64_integer_small (n : Z) : 0 <= n <= 2 ^ 53 -> binary64_integer n.
Proof.
  intros H. destruct (Z.eq_dec n (2 ^ 53)) as [->|Hne].
  - exists 1, 53. lia.
  - exists n, 0. rewrite Z.pow_0_r. lia.
Qed.

(** Such an integer survives the round trip through [float] and [int]. *)
Lemma int_of_round_binary64 (n : Z) :
  binary64_integer n ->
  (x <- Returned (round_binary64 n 1) ;; int_of_float x) = Returned n.
Proof.
  intros (m & k & -> & Hm & Hk & Hlt). cbn [bind].
  unfold round_binary64.
  destruct (m * 2 ^ k <=? 0) eqn:Hz.
  { apply Z.leb_le in Hz.
    assert (0 < 2 ^ k) by (apply Z.pow_pos_nonneg; lia).
    assert (m = 0) by nia. subst m. reflexivity. }
  apply Z.leb_gt in Hz.
  assert (Hm0 : 0 < m) by nia.
  assert (H2k : 0 < 2 ^ k) by (apply Z.pow_pos_nonneg; lia).
  rewrite (ilog2_integer _ Hz), Z.log2_mul_pow2 by lia.
  assert (Hlog : 0 <= Z.log2 m < 53).
  { split; [apply Z.log2_nonneg|]. apply Z.log2_lt_pow2; lia. }
  unfold prec, emin, emax.
  replace (Z.max (k + Z.log2 m - (53 - 1)) (-1074))
    with (k + Z.log2 m - 52) by lia.
  set (q := k + Z.log2 m - 52).
  unfold scale. destruct (0 <=? q) eqn:Hq.
  - apply Z.leb_le in Hq.
    assert (Hsplit : m * 2 ^ k = (m * 2 ^ (k - q)) * (1 * 2 ^ q)).
    { replace k with ((k - q) + q) at 1 by lia.
      rewrite Z.pow_add_r by lia. ring. }
    assert (H2q : 0 < 1 * 2 ^ q)
      by (rewrite Z.mul_1_l; apply Z.pow_pos_nonneg; lia).
    assert (Hdiv : m * 2 ^ k / (1 * 2 ^ q) = m * 2 ^ (k - q))
      by (rewrite Hsplit; apply Z.div_mul; lia).
    assert (Hmod : (m * 2 ^ k) mod (1 * 2 ^ q) = 0)
      by (rewrite Hsplit; apply Z.mod_mul; lia).
    assert (Hback : Z.shiftl (m * 2 ^ (k - q)) q = m * 2 ^ k)
      by (rewrite Z.shiftl_mul_pow2, Hsplit by lia; ring).
    unfold round_half_even. rewrite Hdiv, Hmod.
    replace (2 * 0 ?= 1 * 2 ^ q) with Lt
      by (symmetry; apply Z.compare_lt_iff; lia).
    rewrite Hback.
    destruct (2 ^ 1024 <=? m * 2 ^ k) eqn:Hov;
      [apply Z.leb_le in Hov; lia|].
    cbn [int_of_float]. now rewrite Hback.
  - apply Z.leb_gt in Hq.
    assert (H2q : 0 < 2 ^ (- q)) by (apply Z.pow_pos_nonneg; lia).
    unfold round_half_even.
    rewrite Z.div_1_r, Z.mod_1_r. cbn [Z.mul Z.compare].
    assert (Hback : Z.shiftl (m * 2 ^ k * 2 ^ (- q)) q = m * 2 ^ k).
    { rewrite Z.shiftl_div_pow2 by lia. apply Z.div_mul. lia. }
    rewrite Hback.
    destruct (2 ^ 1024 <=? m * 2 ^ k) eqn:Hov;
      [apply Z.leb_le in Hov; lia|].
    cbn [int_of_float]. now rewrite Hback.
Qed.

(** ** Parsing *)

Lemma span_all (p : char -> bool) (ds : str) :
  Forall (fun c => p c = true) ds -> span p ds = (ds, []).
Proof.
  induction 1 as [|c ds Hc _ IH]; cbn; [reflexivity|].
  now rewrite Hc, IH.
Qed.

Lemma parse_float_integer (ds : str) :
  ds <> [] -> Forall (fun c => is_ascii_digit c = true) ds ->
  parse_float ds = Some (digits_value ds, 0, 0).
Proof.
  intros Hne Hall. unfold parse_float.
  rewrite (span_all _ _ Hall). cbn. rewrite app_nil_r.
  destruct ds; [congruence|reflexivity].
Qed.

Lemma to_decimal_nonneg (c : char) (d : Z) : to_decimal c = Some d -> 0 <= d.
Proof.
  unfold to_decimal. destruct (find _ _) as [r|]; [|discriminate].
  intros [= <-]. pose proof (Z.mod_pos_bound (c - fst r) 10). lia.
Qed.

Lemma decimal_value_nonneg (s : str) :
  forall acc v, 0 <= acc -> decimal_value acc s = Some v -> 0 <= v.
Proof.
  induction s as [|c s IH]; cbn [decimal_value]; intros acc v Hacc H.
  - now injection H as <-.
  - destruct (to_decimal c) as [d|] eqn:Hd; [|discriminate].
    apply to_decimal_nonneg in Hd. eapply IH; [|exact H]. lia.
Qed.

Lemma normalise_nonneg (cleaned digits_only : str) (z : Z) :
  normalise cleaned digits_only = Returned (Some z) -> 0 <= z.
Proof.
  unfold normalise. destruct cleaned as [|c cl]; [discriminate|].
  unfold float_. destruct (parse_float (c :: cl)) as [[[mant flen] e]|].
  - cbn [bind try_except].
    set (x := if 0 <=? e - flen then _ else _).
    assert (Hx : forall m q, x = Finite m q -> 0 <= m).
    { subst x. intros m q. destruct (0 <=? e - flen).
      - apply round_binary64_nonneg. lia.
      - apply round_binary64_nonneg. apply Z.pow_nonneg. lia. }
    destruct x as [m q|]; cbn.
    + intros [= <-]. apply Z.shiftl_nonneg. now apply (Hx m q).
    + discriminate.
  - cbn. destruct digits_only as [|d ds]; [discriminate|].
    unfold int_.
    destruct (decimal_value 0 (d :: ds)) as [v|] eqn:Hv; [|discriminate].
    destruct (int_max_str_digits <? _); [discriminate|].
    cbn. intros [= <-]. eapply decimal_value_nonneg; [|exact Hv]. lia.
Qed.

(** ** The numeric normaliser *)

Lemma to_int_from_text_nonneg (value_text : option str) (z : Z) :
  to_int_from_text value_text = Returned (Some z) -> 0 <= z.
Proof.
  destruct value_text as [s|]; [|discriminate].
  rewrite to_int_from_text_filters. apply normalise_nonneg.
Qed.

(** The model on texts whose results are known. *)
Example to_int_from_text_None : to_int_from_text None = Returned None.
Proof. reflexivity. Qed.

Example to_int_from_text_thousands :
  to_int_from_text (Some (lit "21,500,000")) = Returned (Some 21500000).
Proof. reflexivity. Qed.

Example to_int_from_text_no_digit :
  to_int_from_text (Some (lit "N/A")) = Returned None.
Proof. reflexivity. Qed.

Example to_int_from_text_fallback :
  to_int_from_text (Some (lit "1.234.567")) = Returned (Some 1234567).
Proof. reflexivity. Qed.

Example to_int_from_text_rounds_up :
  to_int_from_text (Some (lit "0.99999999999999999")) = Returned (Some 1).
Proof. reflexivity. Qed.

(** C7.  On "1.25e3" the filter keeps the whole text, [float] reads it as the
    float 1250.0, and [int] of that float, 1250, is the result. *)
Theorem to_int_from_text_scientific :
  let s := lit "1.25e3" in
  filter (contains allowed) (strip s) = s /\
  (exists x, float_ s = Returned x /\ int_of_float x = Returned 1250) /\
  to_int_from_text (Some s) = Returned (Some 1250).
Proof.
  cbv zeta. split; [reflexivity|]. split; [|reflexivity].
  eexists. split; reflexivity.
Qed.

(** C1.  The normaliser does raise: on "1e999" [float] answers infinity and
    [int] raises OverflowError, which the handler for ValueError lets through;
    on "1e5e²" [float] raises ValueError and, inside the handler, [int] raises
    ValueError again on the digit string "15²". *)
Theorem to_int_from_text_raises :
  to_int_from_text (Some (lit "1e999")) = Raised OverflowError /\
  to_int_from_text (Some (lit "1e5e" ++ [178])) = Raised ValueError.
Proof.
  split; now vm_compute.
Qed.

(** C3, as stated, fails.  The digits of "9007199254740993" form [2^53 + 1],
    which no float holds: the normaliser answers [2^53].  And a '.' between
    digits is read as a decimal point, not as a separator: "1.234" gives 1. *)
Lemma to_int_from_text_plain_integer_counterexample :
  (let s := lit "9007199254740993" in
   plain_integer_text s = true /\
   digits_of s = 9007199254740993 /\
   to_int_from_text (Some s) = Returned (Some 9007199254740992) /\
   to_int_from_text (Some s) <> Returned (Some (digits_of s))) /\
  (let s := lit "1.234" in
   digits_of s = 1234 /\ to_int_from_text (Some s) = Returned (Some 1)).
Proof.
  cbv zeta. repeat split; try reflexivity. now vm_compute.
Qed.

(** C3, amended.  For every text without '.', 'e' and 'E' that holds at least
    one ASCII digit, when the integer formed by its ASCII digits is one a
    binary64 float holds exactly (every integer up to [2^53] is), the
    normaliser returns that integer. *)
Theorem to_int_from_text_plain_integer (s : str) :
  plain_integer_text s = true ->
  binary64_integer (digits_of s) ->
  to_int_from_text (Some s) = Returned (Some (digits_of s)).
Proof.
  unfold plain_integer_text, digits_of. intros Hplain Hrep.
  apply andb_true_iff in Hplain as [Hsep Hdig].
  rewrite forallb_forall in Hsep.
  rewrite to_int_from_text_filters.
  assert (Hclean : filter (contains allowed) s = filter is_ascii_digit s).
  { apply filter_ext_in. intros c Hc. rewrite contains_allowed.
    specialize (Hsep c Hc). apply negb_true_iff in Hsep.
    rewrite Hsep. apply orb_false_r. }
  rewrite Hclean. set (ds := filter is_ascii_digit s) in *.
  assert (Hall : Forall (fun c => is_ascii_digit c = true) ds).
  { apply Forall_forall. intros c Hc. now apply filter_In in Hc. }
  assert (Hne : ds <> []) by (destruct ds; [discriminate|congruence]).
  unfold normalise. destruct ds as [|d ds'] eqn:Eds; [congruence|].
  rewrite <- Eds in *. unfold float_.
  rewrite (parse_float_integer ds Hne Hall).
  change (0 - 0) with 0. change (0 <=? 0) with true. cbv iota.
  rewrite Z.pow_0_r, Z.mul_1_r.
  pose proof (int_of_round_binary64 _ Hrep) as Hround.
  cbn [bind] in Hround |- *. rewrite Hround. reflexivity.
Qed.

Lemma to_int_from_text_plain_integer_witness :
  let s := lit "1,234,567 km" ++ [178] in
  to_int_from_text (Some s) = Returned (Some 1234567).
Proof.
  apply (to_int_from_text_plain_integer (lit "1,234,567 km" ++ [178])).
  - reflexivity.
  - exists 1234567, 0. cbv. repeat split; discriminate.
Defined.

Lemma filter_spaced (p : char -> bool) (s s' : str) :
  p 32 = false -> spaced s s' -> filter p s' = filter p s.
Proof.
  intros Hp. induction 1 as [|c s s' _ IH|s s' _ IH]; cbn [filter].
  - reflexivity.
  - now rewrite IH.
  - now rewrite Hp.
Qed.

(** C10.  Space characters inserted anywhere into the input do not change what
    the normaliser does: it returns the same value or raises the same
    exception, because the retained characters and the digit characters, on
    which alone the result depends, are the same. *)
Theorem to_int_from_text_spaced (s s' : str) :
  spaced s s' ->
  filter (contains allowed) s' = filter (contains allowed) s /\
  filter isdigit s' = filter isdigit s /\
  to_int_from_text (Some s') = to_int_from_text (Some s).
Proof.
  intros H.
  assert (H1 := filter_spaced (contains allowed) s s' eq_refl H).
  assert (H2 := filter_spaced isdigit s s' eq_refl H).
  rewrite !to_int_from_text_filters, H1, H2. auto.
Qed.

Lemma to_int_from_text_spaced_witness :
  to_int_from_text (Some (lit " 21 500 000 ")) =
  to_int_from_text (Some (lit "21500000")).
Proof.
  apply (to_int_from_text_spaced (lit "21500000") (lit " 21 500 000 ")).
  cbn. repeat constructor.
Defined.

(** ** The record extractor *)

Lemma for_cards_returned (cards : list node) :
  forall data l,
    for_cards cards data = Returned l <->
    exists rs, l = data ++ rs /\ Forall2 extracts cards rs.
Proof.
  induction cards as [|card cards IH]; intros data l; cbn [for_cards].
  - split.
    + intros [= <-]. exists []. now rewrite app_nil_r.
    + intros (rs & -> & H). inversion H. now rewrite app_nil_r.
  - unfold bind. destruct (extract_record card) as [r|e] eqn:Hr.
    + rewrite IH. split.
      * intros (rs & -> & H). exists (r :: rs).
        rewrite <- app_assoc. split; [reflexivity|]. now constructor.
      * intros (rs & -> & H). inversion H as [|? r' ? rs' Hr' Hrs']; subst.
        unfold extracts in Hr'. rewrite Hr in Hr'. injection Hr' as <-.
        exists rs'. now rewrite <- app_assoc.
    + split; [discriminate|].
      intros (rs & _ & H). inversion H as [|? r' ? rs' Hr' Hrs']; subst.
      unfold extracts in Hr'. congruence.
Qed.

Lemma scrape_countries_data_returned (soup : node) (limit : Z)
  (l : list CountryRecord) :
  scrape_countries_data (Some soup) limit = Returned l <->
  Forall2 extracts (visited soup limit) l.
Proof.
  unfold scrape_countries_data. fold (visited soup limit).
  rewrite for_cards_returned. split.
  - now intros (rs & -> & H).
  - intros H. now exists l.
Qed.

Lemma Forall2_total {A B} (R : A -> B -> Prop) (xs : list A) :
  Forall (fun x => exists y, R x y) xs -> exists ys, Forall2 R xs ys.
Proof.
  induction 1 as [|x xs [y Hy] _ [ys IH]].
  - exists []. constructor.
  - exists (y :: ys). now constructor.
Qed.

Lemma Forall2_nth_error_l {A B} (R : A -> B -> Prop) (xs : list A)
  (ys : list B) :
  Forall2 R xs ys ->
  forall i x, nth_error xs i = Some x ->
              exists y, nth_error ys i = Some y /\ R x y.
Proof.
  induction 1 as [|x0 y0 xs ys H0 _ IH]; intros [|i] x Hx;
    try discriminate.
  - injection Hx as <-. now exists y0.
  - now apply IH.
Qed.

Lemma slice_to_nonneg {A} (l : list A) (stop : Z) :
  0 <= stop -> slice_to l stop = firstn (Z.to_nat stop) l.
Proof.
  intros H. unfold slice_to.
  destruct (stop <? 0) eqn:E; [apply Z.ltb_lt in E; lia|].
  destruct (Z.le_gt_cases stop (Z.of_nat (length l))) as [Hle|Hgt].
  - now rewrite Z.min_l.
  - rewrite Z.min_r, Nat2Z.id, firstn_all by lia.
    symmetry. apply firstn_all2. lia.
Qed.

Lemma slice_to_length {A} (l : list A) (stop : Z) :
  0 <= stop ->
  Z.of_nat (length (slice_to l stop)) = Z.min stop (Z.of_nat (length l)).
Proof.
  intros H. rewrite slice_to_nonneg, length_firstn by assumption. lia.
Qed.

(** When the extractor returns, it returns [min limit n] records for [n]
    candidates. *)
Lemma scrape_countries_data_length (soup : node) (limit : Z)
  (l : list CountryRecord) :
  0 <= limit ->
  scrape_countries_data (Some soup) limit = Returned l ->
  Z.of_nat (length l) = Z.min limit (Z.of_nat (length (country_cards soup))).
Proof.
  intros Hlimit H. apply scrape_countries_data_returned in H.
  rewrite <- (Forall2_length H). now apply slice_to_length.
Qed.

Example scrape_countries_data_andorra :
  scrape_countries_data (Some (Tag "[document]" [] [andorra; block []])) 20 =
  Returned [andorra_record; blank_record].
Proof. reflexivity. Qed.

(** C4, as stated, fails for a negative limit, which the slice counts from the
    end: two blocks and the limit -1 give one record, and 1 is more than -1. *)
Lemma scrape_countries_data_negative_limit :
  exists l, scrape_countries_data (Some two_blocks) (-1) = Returned l /\
            ~ (Z.of_nat (length l) <= -1).
Proof.
  eexists. split; [reflexivity|]. cbn. lia.
Qed.

(** C4, amended.  For every parsed document and every limit that is not
    negative: the candidates are the elements a selector matches, in document
    order; what the extractor returns has at most [limit] records, and its
    i-th record is the one built from the i-th candidate; and the extractor
    does return when the loop body returns on each of the cards visited. *)
Theorem scrape_countries_data_at_most_limit (soup : node) (limit : Z) :
  0 <= limit ->
  (exists sel, country_cards soup = filter (matches sel) (descendants soup)) /\
  (forall l, scrape_countries_data (Some soup) limit = Returned l ->
     Z.of_nat (length l) <= limit /\
     Forall2 extracts (firstn (length l) (country_cards soup)) l) /\
  (Forall (fun card => exists r, extracts card r) (visited soup limit) ->
   exists l, scrape_countries_data (Some soup) limit = Returned l).
Proof.
  intros Hlimit. split; [|split].
  - unfold country_cards, select.
    destruct (nonempty _); eexists; reflexivity.
  - intros l H.
    pose proof (scrape_countries_data_length _ _ _ Hlimit H) as Hlen.
    split; [lia|].
    apply scrape_countries_data_returned in H. unfold visited in H.
    rewrite slice_to_nonneg in H by assumption.
    pose proof (Forall2_length H) as Hl. rewrite length_firstn in Hl.
    destruct (Nat.le_gt_cases (Z.to_nat limit) (length (country_cards soup)))
      as [Hle|Hgt].
    + now rewrite <- Hl, Nat.min_l.
    + rewrite <- Hl, Nat.min_r, firstn_all by lia.
      rewrite firstn_all2 in H by lia. exact H.
  - intros Hall. apply Forall2_total in Hall as [l Hl].
    exists l. now apply scrape_countries_data_returned.
Qed.

Lemma scrape_countries_data_at_most_limit_witness :
  0 <= 1 /\
  exists l, scrape_countries_data (Some two_blocks) 1 = Returned l /\
            Z.of_nat (length l) <= 1.
Proof.
  split; [lia|].
  destruct (scrape_countries_data_at_most_limit two_blocks 1)
    as (_ & Hb & Hr); [lia|].
  destruct Hr as [l Hl].
  - cbn. constructor; [eexists; reflexivity|constructor].
  - exists l. split; [exact Hl|exact (proj1 (Hb l Hl))].
Defined.

Lemma country_cards_nil (soup : node) :
  country_cards soup = [] <->
  select soup div_country = [] /\ select soup h3_country_name = [].
Proof.
  unfold country_cards. destruct (select soup div_country); cbn.
  - tauto.
  - split; [discriminate|]. now intros [? _].
Qed.

(** C5, as stated, fails for the limit 0: nothing is returned although the
    primary selector matches a block. *)
Lemma scrape_countries_data_zero_limit :
  let soup := Tag "[document]" [] [block []] in
  scrape_countries_data (Some soup) 0 = Returned [] /\
  select soup div_country <> [].
Proof.
  cbv zeta. split; [reflexivity|]. cbn. discriminate.
Qed.

(** C5, amended.  For every parsed document and every positive limit, the
    extractor returns zero records if and only if neither the primary selector
    [div.country] nor the fallback selector [h3.country-name] matches an
    element of the document. *)
Theorem scrape_countries_data_empty_iff (soup : node) (limit : Z) :
  0 < limit ->
  scrape_countries_data (Some soup) limit = Returned [] <->
  select soup div_country = [] /\ select soup h3_country_name = [].
Proof.
  intros Hlimit. rewrite scrape_countries_data_returned, <- country_cards_nil.
  unfold visited. rewrite slice_to_nonneg by lia. split.
  - intros H. inversion H as [Hnil|]. symmetry in Hnil.
    destruct (country_cards soup) as [|c cs]; [reflexivity|].
    destruct (Z.to_nat limit) eqn:E; [lia|discriminate].
  - intros ->. rewrite firstn_nil. constructor.
Qed.

Lemma scrape_countries_data_empty_iff_witness :
  0 < 20 /\
  (scrape_countries_data (Some (Tag "[document]" [] [])) 20 = Returned [] <->
   select (Tag "[document]" [] []) div_country = [] /\
   select (Tag "[document]" [] []) h3_country_name = []).
Proof.
  split; [lia|].
  apply (scrape_countries_data_empty_iff (Tag "[document]" [] []) 20). lia.
Defined.

(** C6, as stated, fails for a fallback candidate: an [h3.country-name] header
    has none of the four sub-elements, and its record carries the header's own
    text as the name. *)
Lemma scrape_countries_data_header_name :
  exists card,
    nth_error (visited lone_header 20) 0 = Some card /\
    absent card "country-name" /\ absent card "country-capital" /\
    absent card "country-population" /\ absent card "country-area" /\
    scrape_countries_data (Some lone_header) 20 =
      Returned [{| country_name := lit "Andorra"; capital := None;
                   population := None; area := None |}].
Proof.
  eexists. split; [reflexivity|]. repeat split; reflexivity.
Qed.

(** C6, amended.  For every candidate within the limit that is not an [h3]
    element (every [div.country] block is such) and whose name, capital,
    population and area sub-elements are all absent, the loop body builds the
    record with the empty name and null capital, population and area, and
    that record stands at the candidate's position in what the extractor
    returns. *)
Theorem scrape_countries_data_blank_record (soup : node) (limit : Z)
  (i : nat) (card : node) :
  nth_error (visited soup limit) i = Some card ->
  Soup.name card <> "h3"%string ->
  absent card "country-name" -> absent card "country-capital" ->
  absent card "country-population" -> absent card "country-area" ->
  extract_record card = Returned blank_record /\
  forall l, scrape_countries_data (Some soup) limit = Returned l ->
            nth_error l i = Some blank_record.
Proof.
  unfold absent. intros Hi Hh3 Hn Hc Hp Ha.
  assert (Hrec : extract_record card = Returned blank_record).
  { unfold extract_record. rewrite Hn, Hc, Hp, Ha.
    apply String.eqb_neq in Hh3. cbn [has_text option_map]. now rewrite Hh3. }
  split; [exact Hrec|].
  intros l Hl. apply scrape_countries_data_returned in Hl.
  destruct (Forall2_nth_error_l _ _ _ Hl i card Hi) as (r & Hr & Hx).
  unfold extracts in Hx. congruence.
Qed.

Lemma scrape_countries_data_blank_record_witness :
  extract_record (block []) = Returned blank_record /\
  forall l, scrape_countries_data (Some two_blocks) 20 = Returned l ->
            nth_error l 1 = Some blank_record.
Proof.
  apply (scrape_countries_data_blank_record two_blocks 20 1 (block []));
    try reflexivity.
  cbn. discriminate.
Defined.

(** A block found by the primary selector is a [div]. *)
Lemma select_div_country_name (soup card : node) :
  In card (select soup div_country) -> Soup.name card = "div"%string.
Proof.
  unfold select. intros H. apply filter_In in H as [_ H].
  destruct card as [|nm cls cs]; [discriminate|].
  unfold matches, div_country, sel_tag in H.
  apply andb_true_iff in H as [H _].
  apply String.eqb_eq in H. now subst.
Qed.

Lemma extract_record_nonneg (card : node) (r : CountryRecord) :
  extracts card r ->
  (forall p, population r = Some p -> 0 <= p) /\
  (forall a, area r = Some a -> 0 <= a).
Proof.
  unfold extracts, extract_record. cbv zeta.
  destruct (if has_text (select_one card (by_class "country-population"))
            then _ else _) as [p|] eqn:Hp; [|discriminate].
  cbn [bind].
  destruct (if has_text (select_one card (by_class "country-area"))
            then _ else _) as [a|] eqn:Ha; [|discriminate].
  cbn [bind]. intros [= <-]. cbn [population area].
  split; intros z ->.
  - destruct (has_text _) in Hp; [|discriminate].
    now apply to_int_from_text_nonneg in Hp.
  - destruct (has_text _) in Ha; [|discriminate].
    now apply to_int_from_text_nonneg in Ha.
Qed.

(** C8.  Whenever the normaliser returns an integer, the integer is not
    negative; hence the population and the area of every record the extractor
    returns are null or not negative. *)
Theorem to_int_from_text_not_negative :
  (forall value_text z,
     to_int_from_text value_text = Returned (Some z) -> 0 <= z) /\
  (forall soup limit l r,
     scrape_countries_data soup limit = Returned l -> In r l ->
     (forall p, population r = Some p -> 0 <= p) /\
     (forall a, area r = Some a -> 0 <= a)).
Proof.
  split; [exact to_int_from_text_nonneg|].
  intros [soup|] limit l r Hl Hr.
  - apply scrape_countries_data_returned in Hl.
    apply Forall2_flip in Hl.
    apply In_nth_error in Hr as [i Hi].
    destruct (Forall2_nth_error_l _ _ _ Hl i r Hi) as (card & _ & Hx).
    now apply (extract_record_nonneg card).
  - cbn in Hl. injection Hl as <-. destruct Hr.
Qed.

Lemma to_int_from_text_not_negative_witness : 0 <= 1250.
Proof.
  apply (proj1 to_int_from_text_not_negative (Some (lit "1.25e3")) 1250).
  reflexivity.
Defined.

(** C9.  One block matches and the limit is 20, yet no record is returned:
    the normaliser raises OverflowError on the population text "1e999" and the
    exception leaves the extractor. *)
Theorem scrape_countries_data_raises :
  length (country_cards overflowing_page) = 1%nat /\
  scrape_countries_data (Some overflowing_page) 20 = Raised OverflowError.
Proof.
  split; now vm_compute.
Qed.

(** ** The orchestrator *)

(** C2, as stated, fails: [main] clears the table before it fetches, so a run
    whose fetch fails halts with the message but has deleted the row the table
    held. *)
Lemma run_fetch_failure_deletes_rows :
  let w := run stocked None in
  console w = [fetch_error; halt_fetch] /\
  option_map rows (countries (disk w)) = Some [] /\
  disk w <> stocked.
Proof.
  cbv zeta. split; [reflexivity|]. split; [reflexivity|]. discriminate.
Qed.

(** C2, amended.  If the fetch fails, the job halts with the message and
    inserts no row, but the store has been mutated before the fetch: [init_db]
    has created the table if it was absent and deleted every row it held, so
    that the table is empty after the run (its AUTOINCREMENT counter is kept),
    and the connection is closed. *)
Theorem run_fetch_failure (d : database) :
  openable d = true -> writable d = true ->
  let w := run d None in
  console w = [fetch_error; halt_fetch] /\
  conn w = None /\
  countries (disk w) =
    Some {| rows := [];
            seq := match countries d with Some t => seq t | None => 0 end |}.
Proof.
  destruct d as [o wr [t|]]; cbn [openable writable]; intros -> ->;
    cbv zeta; repeat split; reflexivity.
Qed.

(** A run that succeeds: the old row goes, the new one gets the next
    identifier, and the report is printed. *)
Example run_andorra :
  let w := run stocked (Some (Tag "[document]" [] [andorra])) in
  countries (disk w) =
    Some {| rows := [{| id := 2; fields := andorra_record |}]; seq := 2 |} /\
  console w =
    [Line "Scraping and saving completed successfully.";
     Line "--- First 5 Records ---";
     RowLine {| id := 2; fields := andorra_record |};
     Line "--------------------";
     TotalLine (Some 84000)].
Proof. split; reflexivity. Qed.

Lemma run_fetch_failure_witness :
  let w := run stocked None in
  console w = [fetch_error; halt_fetch] /\
  conn w = None /\
  countries (disk w) = Some {| rows := []; seq := 1 |}.
Proof.
  apply (run_fetch_failure stocked); reflexivity.
Defined.

(** * Further properties *)

(** ** The store *)

Lemma print_all_says (ls : list line) (w : world) :
  print_all ls w = (Returned tt, say w ls).
Proof.
  revert w. induction ls as [|l ls IH]; intros [d c out]; cbn.
  - unfold ret, say. cbn. now rewrite app_nil_r.
  - unfold mbind, print. cbn. rewrite IH. unfold say. cbn.
    now rewrite <- app_assoc.
Qed.

Lemma init_db_runs (w : world) :
  let d := disk w in
  init_db w =
  if openable d && writable d
  then (Returned tt,
        {| disk := cleared d; conn := Some (cleared d);
           console := console w |})
  else (Raised OperationalError,
        if openable d
        then {| disk := d; conn := None; console := console w ++ [init_error] |}
        else w).
Proof.
  destruct w as [[o wr [t|]] c out]; destruct o, wr; reflexivity.
Qed.

(** X1.  [init_db] succeeds exactly on a database that can be opened and
    written.  Then the table exists and is empty, its counter is kept, the
    change is committed and the connection stays open, and nothing is printed.
    Otherwise it raises, the file is as it was, the connection it opened is
    closed again, and the error line is printed when the failure came after
    the connection was made. *)
Theorem init_db_outcome (w : world) :
  let d := disk w in
  init_db w =
  if openable d && writable d
  then (Returned tt,
        {| disk := cleared d; conn := Some (cleared d);
           console := console w |})
  else (Raised OperationalError,
        if openable d
        then {| disk := d; conn := None; console := console w ++ [init_error] |}
        else w).
Proof.
  exact (init_db_runs w).
Qed.

(** X2.  [init_db] is idempotent: a second call returns or raises as the
    first did and leaves the file as the first call left it. *)
Theorem init_db_idempotent (w : world) :
  let '(r1, w1) := init_db w in
  let '(r2, w2) := init_db w1 in
  r2 = r1 /\ disk w2 = disk w1.
Proof.
  destruct w as [[o wr [t|]] c out]; destruct o, wr; cbn; auto.
Qed.

Lemma max_ids_nonneg (l : list row) : 0 <= fold_right Z.max 0 (map id l).
Proof.
  induction l as [|r l IH]; cbn [map fold_right]; lia.
Qed.

Lemma max_ids_app (l1 l2 : list row) :
  fold_right Z.max 0 (map id (l1 ++ l2)) =
  Z.max (fold_right Z.max 0 (map id l1)) (fold_right Z.max 0 (map id l2)).
Proof.
  induction l1 as [|r l1 IH]; cbn [app map fold_right].
  - pose proof (max_ids_nonneg l2) as H. lia.
  - rewrite IH. lia.
Qed.

Lemma high_water_insert_row (t : table) (r : CountryRecord) :
  high_water (insert_row t r) = high_water t + 1.
Proof.
  unfold high_water, insert_row. cbn [rows seq].
  rewrite max_ids_app. cbn [map fold_right id].
  pose proof (max_ids_nonneg (rows t)). lia.
Qed.

Lemma insert_rows_numbered (records : list CountryRecord) :
  forall t,
    rows (fold_left insert_row records t) =
    rows t ++ number (high_water t) records /\
    high_water (fold_left insert_row records t) =
    high_water t + Z.of_nat (length records).
Proof.
  induction records as [|r records IH]; intros t; cbn [fold_left number length].
  - rewrite app_nil_r. split; [reflexivity|lia].
  - destruct (IH (insert_row t r)) as [Hrows Hhigh].
    rewrite Hrows, Hhigh, high_water_insert_row.
    split; [|lia]. unfold insert_row at 1. cbn [rows].
    now rewrite <- app_assoc.
Qed.

Lemma number_fields (base : Z) (records : list CountryRecord) :
  map fields (number base records) = records.
Proof.
  revert base. induction records as [|r records IH]; intros base; cbn.
  - reflexivity.
  - now rewrite IH.
Qed.

Lemma number_length (base : Z) (records : list CountryRecord) :
  length (number base records) = length records.
Proof.
  rewrite <- (number_fields base records) at 2. now rewrite length_map.
Qed.













Lemma report_prints (w : world) (v : database) (t : table) :
  conn w = Some v -> countries v = Some t ->
  report w = (Returned tt, say w (report_lines (rows t))).
Proof.
  intros Hc Ht. destruct w as [d c out]. cbn in Hc. subst c.
  unfold report, try_catch, mbind, fetch_rows, print. cbn.
  rewrite Ht, print_all_says. unfold say, report_lines. cbn.
  rewrite Ht. cbn. now rewrite <- !app_assoc.
Qed.



(** ** The orchestrator *)

Lemma save_batch_commits (records : list CountryRecord) (w : world)
  (v : database) (t : table) :
  conn w = Some v -> countries v = Some t -> writable v = true ->
  save_batch records w =
    (Returned tt,
     {| disk := with_table v (Some (fold_left insert_row records t));
        conn := Some (with_table v (Some (fold_left insert_row records t)));
        console := console w |}).
Proof.
  intros Hc Ht Hw. destruct w as [d c out]. cbn in Hc. subst c.
  unfold save_batch, try_catch, mbind, execute, insert_all, write_table,
    commit. cbn. now rewrite Ht, Hw.
Qed.

Lemma insert_rows_seq (records : list CountryRecord) :
  forall t, records <> [] ->
    seq (fold_left insert_row records t) =
    high_water t + Z.of_nat (length records).
Proof.
  induction records as [|r records IH]; intros t Hne; [congruence|].
  cbn [fold_left length]. destruct records as [|r' records'].
  - cbn. unfold high_water. lia.
  - rewrite IH by discriminate. rewrite high_water_insert_row.
    cbn [length]. lia.
Qed.

(** The table after a run that stores the records [l]. *)
Lemma stored_table (d : database) (l : list CountryRecord) :
  l <> [] ->
  let base :=
    Z.max (match countries d with Some t => seq t | None => 0 end) 0 in
  fold_left insert_row l
    {| rows := [];
       seq := match countries d with Some t => seq t | None => 0 end |} =
  {| rows := number base l; seq := base + Z.of_nat (length l) |}.
Proof.
  intros Hne. cbv zeta.
  set (t0 := {| rows := []; seq := _ |}).
  destruct (insert_rows_numbered l t0) as [Hrows _].
  pose proof (insert_rows_seq l t0 Hne) as Hseq.
  destruct (fold_left insert_row l t0) as [rs s]. cbn [rows seq] in *.
  subst rs s. unfold high_water, t0. cbn [rows seq map fold_right].
  reflexivity.
Qed.

(** All the paths of [main], from any state of the world. *)
Lemma main_paths (response : option node) (w : world) :
  let d := disk w in
  main response w =
  (Returned tt,
   if openable d && writable d then
     match response with
     | None =>
         {| disk := cleared d; conn := None;
            console := console w ++ [fetch_error; halt_fetch] |}
     | Some soup =>
         match scrape_countries_data (Some soup) 20 with
         | Raised _ =>
             {| disk := cleared d; conn := None; console := console w |}
         | Returned [] =>
             {| disk := cleared d; conn := None;
                console := console w ++ [halt_empty] |}
         | Returned ((_ :: _) as l) =>
             let base :=
               Z.max (match countries d with Some t => seq t | None => 0 end)
                 0 in
             {| disk :=
                  with_table d
                    (Some {| rows := number base l;
                             seq := base + Z.of_nat (length l) |});
                conn := None;
                console := console w ++ report_lines (number base l) |}
         end
     end
   else
     {| disk := d; conn := None;
        console := console w ++ (if openable d then [init_error] else []) |}).
Proof.
  cbv zeta. unfold main, finally, try_catch, mbind.
  rewrite init_db_runs. cbv zeta.
  destruct (openable (disk w) && writable (disk w)) eqn:Hok.
  - apply andb_true_iff in Hok as [Ho Hw].
    destruct response as [soup|];
      [|cbn; now rewrite <- app_assoc].
    cbn [fetch_and_parse ret lift].
    destruct (scrape_countries_data (Some soup) 20) as [[|r l]|e];
      [reflexivity| |reflexivity].
    rewrite (save_batch_commits (r :: l) _ (cleared (disk w))
               {| rows := [];
                  seq := match countries (disk w) with
                         | Some t => seq t
                         | None => 0
                         end |}) by (try reflexivity; exact Hw).
    rewrite stored_table by discriminate. cbv zeta.
    erewrite report_prints by reflexivity.
    cbn [say conn disk console close rows]. reflexivity.
  - destruct w as [[o wr tb] c out]. cbn [disk openable writable] in *.
    destruct o; cbn.
    + reflexivity.
    + rewrite app_nil_r. destruct c; reflexivity.
Qed.

(** X7.  [main] never raises, whatever the database and the response, and it
    leaves no connection open. *)
Theorem main_returns_and_closes (response : option node) (w : world) :
  fst (main response w) = Returned tt /\
  conn (snd (main response w)) = None.
Proof.
  rewrite main_paths. cbv zeta. cbn [fst snd]. split; [reflexivity|].
  destruct (openable (disk w) && writable (disk w)); [|reflexivity].
  destruct response as [soup|]; [|reflexivity].
  destruct (scrape_countries_data (Some soup) 20) as [[|r l]|e]; reflexivity.
Qed.



Lemma scrape_countries_data_no_match (soup : node) (limit : Z) :
  select soup div_country = [] -> select soup h3_country_name = [] ->
  scrape_countries_data (Some soup) limit = Returned [].
Proof.
  intros H1 H2. apply scrape_countries_data_returned. unfold visited.
  rewrite (proj2 (country_cards_nil soup) (conj H1 H2)).
  unfold slice_to. rewrite firstn_nil. constructor.
Qed.

(** X9.  A run whose page has no element for either selector stores
    nothing and prints the one line that says so; the table has been emptied
    all the same. *)
Theorem run_no_match (d : database) (soup : node) :
  openable d = true -> writable d = true ->
  select soup div_country = [] -> select soup h3_country_name = [] ->
  run d (Some soup) =
  {| disk := cleared d; conn := None; console := [halt_empty] |}.
Proof.
  intros Ho Hw H1 H2. unfold run. rewrite main_paths.
  cbv zeta. cbn [snd disk console].
  now rewrite Ho, Hw, (scrape_countries_data_no_match soup 20 H1 H2).
Qed.

Lemma run_no_match_witness :
  run stocked (Some (Tag "[document]" [] [Text (lit "nothing here")])) =
  {| disk := cleared stocked; conn := None; console := [halt_empty] |}.
Proof.
  apply (run_no_match stocked
           (Tag "[document]" [] [Text (lit "nothing here")])); reflexivity.
Defined.

(** X10.  When the extractor raises, [main] swallows the exception: the run
    prints nothing at all and stores nothing, and the table has been
    emptied. *)
Theorem run_extraction_raises (d : database) (soup : node) (e : exn) :
  openable d = true -> writable d = true ->
  scrape_countries_data (Some soup) 20 = Raised e ->
  run d (Some soup) = {| disk := cleared d; conn := None; console := [] |}.
Proof.
  intros Ho Hw He. unfold run. rewrite main_paths.
  cbv zeta. cbn [snd disk console]. now rewrite Ho, Hw, He.
Qed.

Lemma run_extraction_raises_witness :
  run stocked (Some overflowing_page) =
  {| disk := cleared stocked; conn := None; console := [] |}.
Proof.
  apply (run_extraction_raises stocked overflowing_page OverflowError);
    reflexivity.
Defined.

(** X11.  A run on a database that cannot be opened or cannot be written
    leaves the file as it was, whatever the response; it prints the
    initialisation error when the file could be opened, and nothing
    otherwise. *)
Theorem run_init_failure (d : database) (response : option node) :
  openable d && writable d = false ->
  run d response =
  {| disk := d; conn := None;
     console := if openable d then [init_error] else [] |}.
Proof.
  intros H. unfold run. rewrite main_paths.
  cbv zeta. cbn [snd disk console]. now rewrite H.
Qed.

Lemma run_init_failure_witness :
  let d := {| openable := true; writable := false;
              countries := countries stocked |} in
  run d None = {| disk := d; conn := None; console := [init_error] |}.
Proof.
  apply (run_init_failure
           {| openable := true; writable := false;
              countries := countries stocked |} None).
  reflexivity.
Defined.

(** X12.  After a run on a database that can be opened and written, the table
    exists and holds at most 20 rows, whatever it held before and whatever
    the response. *)
Theorem run_at_most_twenty_rows (d : database) (response : option node) :
  openable d = true -> writable d = true ->
  exists t, countries (disk (run d response)) = Some t /\
            (length (rows t) <= 20)%nat.
Proof.
  intros Ho Hw. unfold run. rewrite main_paths.
  cbv zeta. cbn [snd disk console]. rewrite Ho, Hw. cbn [andb].
  destruct response as [soup|].
  - destruct (scrape_countries_data (Some soup) 20) as [[|r l]|e] eqn:Hl;
      try (eexists; split; [reflexivity|cbn; lia]).
    eexists. split; [reflexivity|]. cbn [rows].
    apply scrape_countries_data_length in Hl; [|lia].
    rewrite number_length. lia.
  - eexists. split; [reflexivity|cbn; lia].
Qed.

Lemma run_at_most_twenty_rows_witness :
  exists t, countries (disk (run stocked None)) = Some t /\
            (length (rows t) <= 20)%nat.
Proof.
  apply (run_at_most_twenty_rows stocked None); reflexivity.
Defined.



(** ** The numeric normaliser *)

Lemma span_none (p : char -> bool) (s : str) :
  (forall c, In c s -> p c = false) -> span p s = ([], s).
Proof.
  destruct s as [|c s]; intros H; cbn [span]; [reflexivity|].
  now rewrite (H c (or_introl eq_refl)).
Qed.

Lemma parse_float_no_digit (s : str) :
  (forall c, In c s -> is_ascii_digit c = false) -> parse_float s = None.
Proof.
  intros H. unfold parse_float. rewrite (span_none _ _ H).
  destruct s as [|c r]; [reflexivity|].
  destruct (c =? 46); [|reflexivity].
  rewrite span_none; [reflexivity|].
  intros c' Hc'. apply H. now right.
Qed.

Lemma is_ascii_digit_isdigit (c : char) :
  is_ascii_digit c = true -> isdigit c = true.
Proof.
  intros H. unfold isdigit, isdecimal, decimal_ranges, in_ranges.
  cbn [existsb]. unfold in_range at 1. cbn [fst snd].
  unfold is_ascii_digit in H. now rewrite H.
Qed.

(** X14.  On a text without any digit character the normaliser returns null:
    it does not raise. *)
Theorem to_int_from_text_no_digit_null (s : str) :
  (forall c, In c s -> isdigit c = false) ->
  to_int_from_text (Some s) = Returned None.
Proof.
  intros H. rewrite to_int_from_text_filters. unfold normalise.
  assert (Hd : filter isdigit s = []).
  { induction s as [|c s IH]; [reflexivity|]. cbn [filter].
    rewrite (H c (or_introl eq_refl)). apply IH.
    intros c' Hc'. apply H. now right. }
  rewrite Hd. destruct (filter (contains allowed) s) as [|c cl] eqn:Hcl;
    [reflexivity|].
  unfold float_. rewrite parse_float_no_digit; [reflexivity|].
  intros c' Hc'. rewrite <- Hcl in Hc'. apply filter_In in Hc' as [Hin _].
  specialize (H c' Hin). destruct (is_ascii_digit c') eqn:E; [|reflexivity].
  apply is_ascii_digit_isdigit in E. congruence.
Qed.

Lemma to_int_from_text_no_digit_null_witness :
  to_int_from_text (Some (lit "N/A (e.g.)")) = Returned None.
Proof.
  apply (to_int_from_text_no_digit_null (lit "N/A (e.g.)")).
  intros c Hc. cbn in Hc.
  repeat (destruct Hc as [<-|Hc]; [reflexivity|]). destruct Hc.
Defined.

Lemma filter_filter_implied (p q : char -> bool) (s : str) :
  (forall c, p c = true -> q c = true) ->
  filter p (filter q s) = filter p s.
Proof.
  intros H. induction s as [|c s IH]; [reflexivity|]. cbn [filter].
  destruct (q c) eqn:Hq; cbn [filter].
  - now rewrite IH.
  - destruct (p c) eqn:Hp; [|exact IH]. apply H in Hp. congruence.
Qed.

(** X15.  The characters that are neither digits nor among "0123456789.eE"
    (thousands separators, units, blanks) do not count: dropping all of them
    from the input does not change what the normaliser returns or raises. *)
Theorem to_int_from_text_ignores_noise (s : str) :
  to_int_from_text
    (Some (filter (fun c => contains allowed c || isdigit c) s)) =
  to_int_from_text (Some s).
Proof.
  rewrite !to_int_from_text_filters.
  rewrite !filter_filter_implied; [reflexivity| |];
    intros c ->; [apply orb_true_r|reflexivity].
Qed.

Lemma span_prefix (p : char -> bool) (ds : str) (c : char) (rest : str) :
  Forall (fun x => p x = true) ds -> p c = false ->
  span p (ds ++ c :: rest) = (ds, c :: rest).
Proof.
  intros Hds Hc. induction Hds as [|d ds Hd _ IH]; cbn [app span].
  - now rewrite Hc.
  - now rewrite Hd, IH.
Qed.

Lemma digits_value_from (ds : str) :
  forall acc, 0 <= acc ->
    Forall (fun c => is_ascii_digit c = true) ds ->
    0 <= fold_left (fun a c => 10 * a + (c - 48)) ds acc.
Proof.
  induction ds as [|d ds IH]; intros acc Hacc Hds; cbn [fold_left];
    [exact Hacc|].
  inversion Hds as [|? ? Hd Hds']; subst. apply IH; [|exact Hds'].
  unfold is_ascii_digit in Hd. bool_to_Z. lia.
Qed.

Lemma digits_value_nonneg (ds : str) :
  Forall (fun c => is_ascii_digit c = true) ds -> 0 <= digits_value ds.
Proof.
  apply digits_value_from. lia.
Qed.

Lemma parse_float_exponent (ds es : str) (e : char) :
  ds <> [] -> es <> [] ->
  Forall (fun c => is_ascii_digit c = true) ds ->
  Forall (fun c => is_ascii_digit c = true) es ->
  e = 101 \/ e = 69 ->
  parse_float (ds ++ e :: es) = Some (digits_value ds, 0, digits_value es).
Proof.
  intros Hds Hes Hd He Hexp. unfold parse_float.
  rewrite span_prefix by (auto; destruct Hexp; subst; reflexivity).
  replace (e =? 46) with false by (destruct Hexp; subst; reflexivity).
  rewrite app_nil_r. destruct ds as [|d ds']; [congruence|].
  replace ((e =? 101) || (e =? 69)) with true
    by (destruct Hexp; subst; reflexivity).
  rewrite (span_all _ _ He). destruct es; [congruence|reflexivity].
Qed.

(** X16.  An 'e' or 'E' between two runs of digits is read as an exponent:
    when the characters kept by the filter are digits, one 'e' or 'E', and
    digits again, the normaliser returns the first number times ten to the
    power of the second, provided a binary64 float holds that integer
    exactly. *)
Theorem to_int_from_text_exponent (s ds es : str) (e : char) :
  filter (contains allowed) s = ds ++ e :: es ->
  ds <> [] -> es <> [] ->
  Forall (fun c => is_ascii_digit c = true) ds ->
  Forall (fun c => is_ascii_digit c = true) es ->
  e = 101 \/ e = 69 ->
  binary64_integer (digits_value ds * 10 ^ digits_value es) ->
  to_int_from_text (Some s) =
  Returned (Some (digits_value ds * 10 ^ digits_value es)).
Proof.
  intros Hs Hds Hes Hd He Hexp Hrep.
  rewrite to_int_from_text_filters, Hs. unfold normalise.
  destruct (ds ++ e :: es) as [|c cl] eqn:Hcl;
    [now destruct ds|]. rewrite <- Hcl. unfold float_.
  rewrite parse_float_exponent by assumption.
  rewrite Z.sub_0_r.
  pose proof (digits_value_nonneg es He) as Hpos.
  apply Z.leb_le in Hpos. rewrite Hpos.
  pose proof (int_of_round_binary64 _ Hrep) as Hround.
  cbn [bind] in Hround |- *. now rewrite Hround.
Qed.

Lemma to_int_from_text_exponent_witness :
  to_int_from_text (Some (lit "12 e 3")) = Returned (Some 12000).
Proof.
  apply (to_int_from_text_exponent (lit "12 e 3") (lit "12") (lit "3") 101);
    try reflexivity; try discriminate.
  - repeat constructor.
  - repeat constructor.
  - now left.
  - exists 12000, 0. cbv. repeat split; discriminate.
Defined.

Lemma round_binary64_overflow (n : Z) :
  2 ^ 1024 <= n -> round_binary64 n 1 = Infinity.
Proof.
  intros Hn. assert (Hpos : 0 < n) by lia.
  unfold round_binary64.
  destruct (n <=? 0) eqn:E; [apply Z.leb_le in E; lia|].
  rewrite (ilog2_integer n Hpos).
  assert (Hlog : 1024 <= Z.log2 n) by (apply Z.log2_le_pow2; lia).
  unfold prec, emin, emax.
  replace (Z.max (Z.log2 n - (53 - 1)) (-1074)) with (Z.log2 n - 52) by lia.
  set (q := Z.log2 n - 52). unfold scale.
  destruct (0 <=? q) eqn:Hq; [|apply Z.leb_gt in Hq; lia].
  rewrite Z.mul_1_l.
  assert (H2q : 0 < 2 ^ q) by (apply Z.pow_pos_nonneg; lia).
  assert (Hlow : 2 ^ 52 * 2 ^ q <= n).
  { rewrite <- Z.pow_add_r by lia. replace (52 + q) with (Z.log2 n) by lia.
    now apply Z.log2_spec. }
  assert (Hdiv : 2 ^ 52 <= n / 2 ^ q) by (apply Z.div_le_lower_bound; lia).
  assert (Hm : n / 2 ^ q <= round_half_even n (2 ^ q)).
  { unfold round_half_even.
    destruct (2 * (n mod 2 ^ q) ?= 2 ^ q);
      [destruct (Z.even (n / 2 ^ q))| |]; lia. }
  rewrite Z.shiftl_mul_pow2 by lia.
  destruct (2 ^ 1024 <=? round_half_even n (2 ^ q) * 2 ^ q) eqn:Hov;
    [reflexivity|].
  apply Z.leb_gt in Hov.
  assert (2 ^ 1024 <= 2 ^ 52 * 2 ^ q).
  { rewrite <- Z.pow_add_r by lia. apply Z.pow_le_mono_r; lia. }
  nia.
Qed.

(** X17.  A text without '.', 'e' and 'E' whose ASCII digits form an integer
    of [2^1024] or more makes the normaliser raise OverflowError. *)
Theorem to_int_from_text_overflow (s : str) :
  plain_integer_text s = true ->
  2 ^ 1024 <= digits_of s ->
  to_int_from_text (Some s) = Raised OverflowError.
Proof.
  unfold plain_integer_text, digits_of. intros Hplain Hbig.
  apply andb_true_iff in Hplain as [Hsep Hdig].
  rewrite forallb_forall in Hsep.
  rewrite to_int_from_text_filters.
  assert (Hclean : filter (contains allowed) s = filter is_ascii_digit s).
  { apply filter_ext_in. intros c Hc. rewrite contains_allowed.
    specialize (Hsep c Hc). apply negb_true_iff in Hsep.
    rewrite Hsep. apply orb_false_r. }
  rewrite Hclean. set (ds := filter is_ascii_digit s) in *.
  assert (Hall : Forall (fun c => is_ascii_digit c = true) ds).
  { apply Forall_forall. intros c Hc. now apply filter_In in Hc. }
  assert (Hne : ds <> []) by (destruct ds; [discriminate|congruence]).
  unfold normalise. destruct ds as [|d ds'] eqn:Eds; [congruence|].
  rewrite <- Eds in *. unfold float_.
  rewrite (parse_float_integer ds Hne Hall).
  change (0 - 0) with 0. change (0 <=? 0) with true. cbv iota.
  rewrite Z.pow_0_r, Z.mul_1_r, round_binary64_overflow by assumption.
  reflexivity.
Qed.

Lemma to_int_from_text_overflow_witness :
  to_int_from_text (Some (repeat 57 309 ++ lit " km")) = Raised OverflowError.
Proof.
  apply (to_int_from_text_overflow (repeat 57 309 ++ lit " km")).
  - now vm_compute.
  - now vm_compute.
Defined.

Lemma scale_eq (n d q : Z) :
  scale n d q = (n * 2 ^ Z.max (- q) 0, d * 2 ^ Z.max q 0).
Proof.
  unfold scale. destruct (0 <=? q) eqn:E.
  - apply Z.leb_le in E. rewrite Z.max_r, Z.max_l by lia.
    now rewrite Z.pow_0_r, Z.mul_1_r.
  - apply Z.leb_gt in E. rewrite Z.max_l, Z.max_r by lia.
    now rewrite Z.pow_0_r, Z.mul_1_r.
Qed.

(** [ilog2 n d] is the exponent [e] with [2^e <= n / d < 2^(e+1)]. *)
Lemma ilog2_bounds (n d : Z) :
  0 < n -> 0 < d ->
  let e := ilog2 n d in
  d * 2 ^ Z.max e 0 <= n * 2 ^ Z.max (- e) 0 < 2 * (d * 2 ^ Z.max e 0).
Proof.
  intros Hn Hd. cbv zeta. unfold ilog2.
  destruct (Z.log2_spec n Hn) as [Hn1 Hn2].
  destruct (Z.log2_spec d Hd) as [Hd1 Hd2].
  pose proof (Z.log2_nonneg n) as Hln. pose proof (Z.log2_nonneg d) as Hld.
  set (ln := Z.log2 n) in *. set (ld := Z.log2 d) in *.
  rewrite scale_eq.
  assert (Hpow : forall x, 0 <= x -> 0 < 2 ^ x)
    by (intros; apply Z.pow_pos_nonneg; lia).
  destruct (d * 2 ^ Z.max (ln - ld) 0 <=? n * 2 ^ Z.max (- (ln - ld)) 0)
    eqn:E.
  - apply Z.leb_le in E. split; [exact E|].
    set (x := Z.max (- (ln - ld)) 0) in *. set (y := Z.max (ln - ld) 0) in *.
    assert (Hx : 0 <= x) by lia. assert (Hy : 0 <= y) by lia.
    assert (Heq : 2 ^ Z.succ ln * 2 ^ x = 2 * (2 ^ ld * 2 ^ y)).
    { rewrite <- !Z.pow_add_r, <- Z.pow_succ_r by lia. f_equal. lia. }
    pose proof (Hpow x Hx). pose proof (Hpow y Hy). nia.
  - apply Z.leb_gt in E.
    set (x0 := Z.max (- (ln - ld)) 0) in *.
    set (y0 := Z.max (ln - ld) 0) in *.
    set (x := Z.max (- (ln - ld - 1)) 0). set (y := Z.max (ln - ld - 1) 0).
    assert (Hx0 : 0 <= x0) by lia. assert (Hy0 : 0 <= y0) by lia.
    assert (Hx : 0 <= x) by lia. assert (Hy : 0 <= y) by lia.
    pose proof (Hpow x0 Hx0). pose proof (Hpow y0 Hy0).
    pose proof (Hpow x Hx). pose proof (Hpow y Hy).
    assert (Heq1 : 2 ^ y0 * 2 ^ x = 2 * (2 ^ y * 2 ^ x0)).
    { rewrite <- !Z.pow_add_r by lia.
      rewrite <- Z.pow_succ_r by lia. f_equal. lia. }
    assert (Heq2 : 2 ^ Z.succ ld * 2 ^ y = 2 ^ ln * 2 ^ x).
    { rewrite <- !Z.pow_add_r by lia. f_equal. lia. }
    split.
    + assert (d * 2 ^ y < 2 ^ Z.succ ld * 2 ^ y) by nia.
      assert (2 ^ ln * 2 ^ x <= n * 2 ^ x) by nia. lia.
    + assert (n * 2 ^ x0 * 2 ^ x < d * 2 ^ y0 * 2 ^ x) by nia.
      assert (n * 2 ^ x * 2 ^ x0 < 2 * (d * 2 ^ y) * 2 ^ x0) by nia.
      nia.
Qed.

(** Below [2^1023] rounding does not reach infinity. *)
Lemma round_binary64_finite (n d : Z) :
  0 < d -> n < d * 2 ^ 1023 ->
  exists m q, round_binary64 n d = Finite m q.
Proof.
  intros Hd Hn. unfold round_binary64.
  destruct (n <=? 0) eqn:E; [eauto|]. apply Z.leb_gt in E.
  pose proof (ilog2_bounds n d E Hd) as [Hlo Hhi]. cbv zeta in Hlo, Hhi.
  set (e := ilog2 n d) in *. unfold prec, emin, emax.
  set (q := Z.max (e - (53 - 1)) (-1074)).
  rewrite scale_eq.
  assert (Hpow : forall x, 0 <= x -> 0 < 2 ^ x)
    by (intros; apply Z.pow_pos_nonneg; lia).
  set (ex := Z.max (- e) 0) in *. set (ey := Z.max e 0) in *.
  set (qx := Z.max (- q) 0). set (qy := Z.max q 0).
  assert (Hex : 0 <= ex) by lia. assert (Hey : 0 <= ey) by lia.
  assert (Hqx : 0 <= qx) by lia. assert (Hqy : 0 <= qy) by lia.
  pose proof (Hpow ex Hex). pose proof (Hpow ey Hey).
  pose proof (Hpow qx Hqx). pose proof (Hpow qy Hqy).
  set (a := n * 2 ^ qx). set (b := d * 2 ^ qy).
  assert (Hb : 0 < b) by (unfold b; nia).
  assert (Hab : a < 2 ^ 53 * b).
  { assert (Hle : 2 * (2 ^ ey * 2 ^ qx) <= 2 ^ 53 * (2 ^ qy * 2 ^ ex)).
    { rewrite <- !Z.pow_add_r by lia.
      replace (2 * 2 ^ (ey + qx)) with (2 ^ Z.succ (ey + qx))
        by (rewrite Z.pow_succ_r by lia; reflexivity).
      apply Z.pow_le_mono_r; lia. }
    assert (a * 2 ^ ex < 2 ^ 53 * b * 2 ^ ex); [|nia].
    unfold a, b.
    assert (n * 2 ^ ex * 2 ^ qx < 2 * (d * 2 ^ ey) * 2 ^ qx) by nia.
    nia. }
  assert (Hm : 0 <= round_half_even a b <= 2 ^ 53).
  { assert (a / b < 2 ^ 53) by (apply Z.div_lt_upper_bound; lia).
    assert (0 <= a / b) by (apply Z.div_pos; unfold a; nia).
    unfold round_half_even.
    destruct (2 * (a mod b) ?= b); [destruct (Z.even (a / b))| |]; lia. }
  destruct (2 ^ 1024 <=? Z.shiftl (round_half_even a b) q) eqn:Hov;
    [|eauto].
  apply Z.leb_le in Hov. exfalso.
  destruct (Z.le_gt_cases 0 q) as [Hq|Hq].
  - rewrite Z.shiftl_mul_pow2 in Hov by lia.
    assert (He : q = e - 52) by lia.
    assert (Hey' : ey = e) by lia. assert (Hex' : ex = 0) by lia.
    rewrite Hey', Hex', Z.pow_0_r, Z.mul_1_r in Hlo.
    assert (H2e : 2 ^ e < 2 ^ 1023) by nia.
    apply Z.pow_lt_mono_r_iff in H2e; [|lia|lia].
    assert (Hq' : 2 ^ q <= 2 ^ 970) by (apply Z.pow_le_mono_r; lia).
    assert (0 < 2 ^ q) by (apply Hpow; lia).
    assert (round_half_even a b * 2 ^ q <= 2 ^ 53 * 2 ^ 970) by nia.
    change (2 ^ 53 * 2 ^ 970) with (2 ^ 1023) in *.
    assert (2 ^ 1023 < 2 ^ 1024) by (apply Z.pow_lt_mono_r; lia). lia.
  - rewrite Z.shiftl_div_pow2 in Hov by lia.
    assert (0 < 2 ^ (- q)) by (apply Hpow; lia).
    assert (round_half_even a b / 2 ^ (- q) <= round_half_even a b).
    { apply Z.div_le_upper_bound; [lia|]. nia. }
    assert (2 ^ 53 < 2 ^ 1024) by (apply Z.pow_lt_mono_r; lia). lia.
Qed.

Lemma span_spec (p : char -> bool) (s : str) :
  forall a b, span p s = (a, b) ->
              s = a ++ b /\ Forall (fun c => p c = true) a.
Proof.
  induction s as [|c s IH]; intros a b; cbn [span].
  - intros [= <- <-]. split; [reflexivity|constructor].
  - destruct (p c) eqn:Hc.
    + destruct (span p s) as [a' b'] eqn:Hs. intros [= <- <-].
      destruct (IH a' b' eq_refl) as [-> Ha]. split; [reflexivity|].
      now constructor.
    + intros [= <- <-]. split; [reflexivity|constructor].
Qed.

Lemma filter_all (p : char -> bool) (s : str) :
  Forall (fun c => p c = true) s -> filter p s = s.
Proof.
  induction 1 as [|c s Hc _ IH]; cbn [filter]; [reflexivity|].
  now rewrite Hc, IH.
Qed.

(** What a literal that [parse_float] accepts is made of. *)
Lemma parse_float_inv (s : str) (mant flen e : Z) :
  parse_float s = Some (mant, flen, e) ->
  exists ds,
    Forall (fun c => is_ascii_digit c = true) ds /\
    mant = digits_value ds /\
    (length ds <= length (filter is_ascii_digit s))%nat /\
    0 <= flen /\
    (e = 0 \/ exists c, In c s /\ (c = 101 \/ c = 69)).
Proof.
  unfold parse_float.
  destruct (span is_ascii_digit s) as [ip r1] eqn:H1.
  apply span_spec in H1 as [-> Hip].
  assert (Hcount : forall fp r2,
            Forall (fun c => is_ascii_digit c = true) fp ->
            (r1 = r2 /\ fp = [] \/ r1 = 46 :: fp ++ r2) ->
            (length (ip ++ fp) <=
             length (filter is_ascii_digit (ip ++ r1)))%nat).
  { intros fp r2 Hfp Hr1. rewrite filter_app, (filter_all _ ip Hip).
    rewrite !length_app. destruct Hr1 as [[-> ->] | ->]; [cbn; lia|].
    change (46 :: fp ++ r2) with ([46] ++ fp ++ r2).
    rewrite !filter_app, (filter_all _ fp Hfp), !length_app. lia. }
  set (tail := match r1 with
               | [] => ([], [])
               | c :: r => if c =? 46 then span is_ascii_digit r else ([], r1)
               end).
  assert (Htail : forall fp r2, tail = (fp, r2) ->
            Forall (fun c => is_ascii_digit c = true) fp /\
            (r1 = r2 /\ fp = [] \/ r1 = 46 :: fp ++ r2)).
  { subst tail. intros fp r2. destruct r1 as [|c r].
    - intros [= <- <-]. split; [constructor|now left].
    - destruct (c =? 46) eqn:Hc.
      + apply Z.eqb_eq in Hc. subst c. intros Hs.
        apply span_spec in Hs as [-> Hfp]. split; [exact Hfp|now right].
      + intros [= <- <-]. split; [constructor|now left]. }
  destruct tail as [fp r2]. destruct (Htail fp r2 eq_refl) as [Hfp Hr1].
  specialize (Hcount fp r2 Hfp Hr1).
  destruct (ip ++ fp) as [|d ds'] eqn:Hds; [discriminate|].
  rewrite <- Hds in *.
  assert (Hall : Forall (fun c => is_ascii_digit c = true) (ip ++ fp))
    by (apply Forall_app; now split).
  destruct r2 as [|c r].
  - intros [= <- <- <-]. exists (ip ++ fp).
    repeat split; try assumption; lia.
  - destruct ((c =? 101) || (c =? 69)) eqn:Hc; [|discriminate].
    destruct (span is_ascii_digit r) as [[|x ep] [|y r3]]; try discriminate.
    intros [= <- <- <-]. exists (ip ++ fp).
    repeat split; try assumption; try lia. right. exists c. split.
    + apply in_or_app. right.
      destruct Hr1 as [[-> _] | ->]; [now left|].
      right. apply in_or_app. right. now left.
    + bool_to_Z. lia.
Qed.

Lemma digits_value_below (ds : str) :
  forall acc, 0 <= acc ->
    Forall (fun c => is_ascii_digit c = true) ds ->
    fold_left (fun a c => 10 * a + (c - 48)) ds acc <
    (acc + 1) * 10 ^ Z.of_nat (length ds).
Proof.
  induction ds as [|d ds IH]; intros acc Hacc Hds; cbn [fold_left length].
  - cbn. lia.
  - inversion Hds as [|? ? Hd Hds']; subst.
    unfold is_ascii_digit in Hd. bool_to_Z.
    specialize (IH (10 * acc + (d - 48)) ltac:(lia) Hds').
    rewrite Nat2Z.inj_succ, Z.pow_succ_r by lia.
    assert (0 < 10 ^ Z.of_nat (length ds)) by (apply Z.pow_pos_nonneg; lia).
    nia.
Qed.

Lemma to_decimal_ascii (c : char) :
  is_ascii_digit c = true -> exists d, to_decimal c = Some d.
Proof.
  intros H. unfold to_decimal, decimal_ranges. cbn [find].
  unfold in_range at 1. cbn [fst snd]. unfold is_ascii_digit in H.
  rewrite H. eauto.
Qed.

Lemma decimal_value_ascii (ds : str) :
  Forall (fun c => is_ascii_digit c = true) ds ->
  forall acc, exists v, decimal_value acc ds = Some v.
Proof.
  induction 1 as [|d ds Hd _ IH]; intros acc; cbn [decimal_value].
  - eauto.
  - destruct (to_decimal_ascii d Hd) as [x ->]. apply IH.
Qed.

(** X18.  The normaliser does not raise on a text that has no 'e' and no
    'E', no digit character other than the ASCII digits, and at most 307
    ASCII digits: it returns an integer or null. *)
Theorem to_int_from_text_returns (s : str) :
  (forall c, In c s -> c <> 101 /\ c <> 69) ->
  (forall c, In c s -> isdigit c = true -> is_ascii_digit c = true) ->
  (length (filter is_ascii_digit s) <= 307)%nat ->
  exists r, to_int_from_text (Some s) = Returned r.
Proof.
  intros He Hdig Hlen. rewrite to_int_from_text_filters. unfold normalise.
  destruct (filter (contains allowed) s) as [|c cl] eqn:Hcl; [eauto|].
  rewrite <- Hcl. unfold float_.
  destruct (parse_float (filter (contains allowed) s))
    as [[[mant flen] e]|] eqn:Hp.
  - apply parse_float_inv in Hp
      as (ds & Hds & -> & Hcount & Hflen & [-> | (x & Hx & Hxe)]).
    + assert (Hcount' : (length ds <= 307)%nat).
      { rewrite filter_filter_implied in Hcount; [lia|].
        intros y Hy. rewrite contains_allowed, Hy. reflexivity. }
      assert (Hbound : digits_value ds < 2 ^ 1023).
      { pose proof (digits_value_below ds 0 ltac:(lia) Hds) as Hb.
        fold (digits_value ds) in Hb.
        assert (10 ^ Z.of_nat (length ds) <= 10 ^ 307)
          by (apply Z.pow_le_mono_r; lia).
        assert (10 ^ 307 < 2 ^ 1023) by now vm_compute. lia. }
      assert (Hfin : exists m q,
                (if 0 <=? 0 - flen
                 then round_binary64 (digits_value ds * 10 ^ (0 - flen)) 1
                 else round_binary64 (digits_value ds) (10 ^ (- (0 - flen)))) =
                Finite m q).
      { destruct (0 <=? 0 - flen) eqn:E.
        - apply Z.leb_le in E. replace (0 - flen) with 0 by lia.
          rewrite Z.pow_0_r, Z.mul_1_r.
          apply round_binary64_finite; lia.
        - apply Z.leb_gt in E.
          assert (0 < 10 ^ (- (0 - flen))) by (apply Z.pow_pos_nonneg; lia).
          assert (0 < 2 ^ 1023) by (apply Z.pow_pos_nonneg; lia).
          apply round_binary64_finite; [lia|]. nia. }
      destruct Hfin as (m & q & ->). cbn. eauto.
    + apply filter_In in Hx as [Hx _]. specialize (He x Hx). lia.
  - cbn [bind try_except exn_eqb].
    assert (Hd : filter isdigit s = filter is_ascii_digit s).
    { apply filter_ext_in. intros y Hy.
      destruct (isdigit y) eqn:E1.
      - symmetry. now apply Hdig.
      - destruct (is_ascii_digit y) eqn:E2; [|reflexivity].
        apply is_ascii_digit_isdigit in E2. congruence. }
    rewrite Hd.
    destruct (filter is_ascii_digit s) as [|d ds] eqn:Hds; [eauto|].
    rewrite <- Hds in *. unfold int_.
    assert (Hall : Forall (fun c => is_ascii_digit c = true)
                     (filter is_ascii_digit s)).
    { apply Forall_forall. intros y Hy. now apply filter_In in Hy. }
    destruct (decimal_value_ascii _ Hall 0) as [v ->].
    rewrite Hds. rewrite <- Hds.
    destruct (int_max_str_digits <? Z.of_nat (length (filter is_ascii_digit s)))
      eqn:E.
    + apply Z.ltb_lt in E. unfold int_max_str_digits in E. lia.
    + cbn. eauto.
Qed.

Lemma to_int_from_text_returns_witness :
  exists r, to_int_from_text (Some (lit "1.234.567,89 km")) = Returned r.
Proof.
  apply (to_int_from_text_returns (lit "1.234.567,89 km")).
  - intros c Hc. cbn in Hc.
    repeat (destruct Hc as [<-|Hc]; [split; discriminate|]). destruct Hc.
  - intros c Hc. cbn in Hc.
    repeat (destruct Hc as [<-|Hc];
            [first [reflexivity | intros Hd; vm_compute in Hd; discriminate]|]).
    destruct Hc.
  - cbn. lia.
Defined.






(** ** The record extractor *)

Lemma Forall2_firstn {A B} (R : A -> B -> Prop) (k : nat) :
  forall xs ys, Forall2 R xs ys -> Forall2 R (firstn k xs) (firstn k ys).
Proof.
  induction k as [|k IH]; intros xs ys H; [constructor|].
  destruct H; cbn [firstn]; constructor; auto.
Qed.

(** X20.  Lowering the limit only cuts the result short: what the extractor
    returns for a limit is the beginning of what it returns for any larger
    limit. *)
Theorem scrape_countries_data_prefix (soup : node) (limit limit' : Z)
  (l : list CountryRecord) :
  0 <= limit <= limit' ->
  scrape_countries_data (Some soup) limit' = Returned l ->
  scrape_countries_data (Some soup) limit =
  Returned (firstn (Z.to_nat limit) l).
Proof.
  intros Hlim H. apply scrape_countries_data_returned in H.
  apply scrape_countries_data_returned. unfold visited in *.
  rewrite slice_to_nonneg in * by lia.
  replace (firstn (Z.to_nat limit) (country_cards soup))
    with (firstn (Z.to_nat limit)
            (firstn (Z.to_nat limit') (country_cards soup))).
  - now apply Forall2_firstn.
  - rewrite firstn_firstn. f_equal. lia.
Qed.

Lemma scrape_countries_data_prefix_witness :
  scrape_countries_data (Some two_blocks) 1 =
  Returned (firstn 1 [blank_record; blank_record]).
Proof.
  apply (scrape_countries_data_prefix two_blocks 1 20); [lia|reflexivity].
Defined.

(** X21.  A negative limit counts from the end: the extractor then leaves out
    the last [- limit] candidates, and returns the records of the others, in
    order (none when there are not more than [- limit] candidates). *)
Theorem scrape_countries_data_negative (soup : node) (limit : Z)
  (l : list CountryRecord) :
  limit < 0 ->
  scrape_countries_data (Some soup) limit = Returned l ->
  Z.of_nat (length l) =
    Z.max (Z.of_nat (length (country_cards soup)) + limit) 0 /\
  Forall2 extracts (firstn (length l) (country_cards soup)) l.
Proof.
  intros Hlim H. apply scrape_countries_data_returned in H.
  unfold visited, slice_to in H.
  destruct (limit <? 0) eqn:E; [|apply Z.ltb_ge in E; lia].
  pose proof (Forall2_length H) as Hlen. rewrite length_firstn in Hlen.
  assert (Hl : length l =
               Z.to_nat (Z.max (Z.of_nat (length (country_cards soup)) + limit)
                           0)) by lia.
  split; [lia|]. now rewrite Hl.
Qed.

Lemma scrape_countries_data_negative_witness :
  Z.of_nat (length [blank_record]) =
    Z.max (Z.of_nat (length (country_cards two_blocks)) + -1) 0 /\
  Forall2 extracts (firstn (length [blank_record]) (country_cards two_blocks))
    [blank_record].
Proof.
  apply (scrape_countries_data_negative two_blocks (-1) [blank_record]);
    [lia|reflexivity].
Defined.

Lemma select_h3_country_name_name (soup card : node) :
  In card (select soup h3_country_name) -> Soup.name card = "h3"%string.
Proof.
  unfold select. intros H. apply filter_In in H as [_ H].
  destruct card as [|nm cls cs]; [discriminate|].
  unfold matches, h3_country_name, sel_tag in H.
  apply andb_true_iff in H as [H _].
  apply String.eqb_eq in H. now subst.
Qed.

(** X22.  The candidates are never a mixture: as soon as the page has one
    [div.country] block they are the blocks, all of them [div] elements, and
    the [h3.country-name] headers are candidates only when the page has no
    block, and then all candidates are [h3] elements. *)
Theorem country_cards_one_kind (soup : node) :
  (select soup div_country <> [] ->
   country_cards soup = select soup div_country /\
   Forall (fun card => Soup.name card = "div"%string) (country_cards soup)) /\
  (select soup div_country = [] ->
   country_cards soup = select soup h3_country_name /\
   Forall (fun card => Soup.name card = "h3"%string) (country_cards soup)).
Proof.
  unfold country_cards. split; intros H.
  - destruct (select soup div_country) as [|c cs] eqn:E; [congruence|].
    cbn [nonempty]. split; [reflexivity|]. rewrite <- E.
    apply Forall_forall. intros card. apply select_div_country_name.
  - rewrite H. cbn [nonempty]. split; [reflexivity|].
    apply Forall_forall. intros card. apply select_h3_country_name_name.
Qed.

Lemma country_cards_one_kind_witness :
  country_cards two_blocks = select two_blocks div_country /\
  Forall (fun card => Soup.name card = "div"%string) (country_cards two_blocks).
Proof.
  apply (proj1 (country_cards_one_kind two_blocks)). cbn. discriminate.
Defined.

Lemma lstrip_trimmed_head (s : str) :
  match lstrip s with
  | [] => True
  | c :: _ => isspace c = false
  end.
Proof.
  induction s as [|c s IH]; cbn [lstrip]; [exact I|].
  destruct (isspace c) eqn:E; [exact IH|exact E].
Qed.

Lemma lstrip_suffix (s : str) : exists w, s = w ++ lstrip s.
Proof.
  induction s as [|c s [w IH]]; cbn [lstrip]; [now exists []|].
  destruct (isspace c).
  - exists (c :: w). cbn. now f_equal.
  - now exists [].
Qed.

Lemma last_rev_cons {A} (l : list A) (x d : A) : last (rev (x :: l)) d = x.
Proof.
  cbn [rev]. apply last_last.
Qed.

Lemma strip_trimmed (s : str) : trimmed (strip s).
Proof.
  unfold strip, rstrip. set (t := lstrip s).
  pose proof (lstrip_trimmed_head s) as Hhead. fold t in Hhead.
  destruct (lstrip_suffix (rev t)) as [w Hw].
  pose proof (lstrip_trimmed_head (rev t)) as Hlast.
  assert (Ht : t = rev (lstrip (rev t)) ++ rev w).
  { rewrite <- rev_app_distr, <- Hw. now rewrite rev_involutive. }
  destruct (lstrip (rev t)) as [|x u] eqn:Hu; [exact I|].
  unfold trimmed. destruct (rev (x :: u)) as [|c r] eqn:Hr.
  { exact I. }
  split.
  - rewrite Ht in Hhead. cbn [app] in Hhead. exact Hhead.
  - rewrite <- Hr, last_rev_cons. exact Hlast.
Qed.

Lemma last_app_r {A} (l1 l2 : list A) (d : A) :
  l2 <> [] -> last (l1 ++ l2) d = last l2 d.
Proof.
  intros H. induction l1 as [|x l1 IH]; [reflexivity|].
  cbn [app last]. destruct (l1 ++ l2) eqn:E; [|exact IH].
  apply app_eq_nil in E as [_ E]. congruence.
Qed.

Lemma concat_trimmed (ps : list str) :
  Forall (fun p => p <> [] /\ trimmed p) ps -> trimmed (concat ps).
Proof.
  induction 1 as [|p ps [Hne Hp] Hps IH]; cbn [concat]; [exact I|].
  destruct p as [|c p']; [congruence|]. cbn [app]. unfold trimmed in *.
  destruct Hp as [Hc Hl]. split; [exact Hc|].
  change (c :: p' ++ concat ps) with ((c :: p') ++ concat ps).
  destruct (concat ps) as [|x xs] eqn:E.
  - now rewrite app_nil_r.
  - destruct IH as [_ IH]. rewrite last_app_r by discriminate. exact IH.
Qed.

Lemma get_text_strip_trimmed (n : node) : trimmed (get_text_strip n).
Proof.
  unfold get_text_strip. apply concat_trimmed.
  apply Forall_forall. intros p Hp. apply filter_In in Hp as [Hin Hne].
  apply in_map_iff in Hin as (x & <- & _). split.
  - destruct (strip x); [discriminate|discriminate].
  - apply strip_trimmed.
Qed.

(** X23.  The texts of a record are stored trimmed: in every record the
    extractor returns, the name and the capital have no blank at either end,
    and the capital is null rather than the empty string. *)
Theorem scrape_countries_data_trimmed (soup : option node) (limit : Z)
  (l : list CountryRecord) (r : CountryRecord) :
  scrape_countries_data soup limit = Returned l -> In r l ->
  trimmed (country_name r) /\
  capital r <> Some [] /\
  (forall c, capital r = Some c -> trimmed c).
Proof.
  intros Hl Hr. destruct soup as [soup|];
    [|cbn in Hl; injection Hl as <-; destruct Hr].
  apply scrape_countries_data_returned in Hl. apply Forall2_flip in Hl.
  apply In_nth_error in Hr as [i Hi].
  destruct (Forall2_nth_error_l _ _ _ Hl i r Hi) as (card & _ & Hx).
  clear - Hx. unfold extracts, extract_record in Hx. cbv zeta in Hx.
  destruct (if has_text (select_one card (by_class "country-population"))
            then _ else _) as [p|]; [|discriminate].
  cbn [bind] in Hx.
  destruct (if has_text (select_one card (by_class "country-area"))
            then _ else _) as [a|]; [|discriminate].
  cbn [bind] in Hx. injection Hx as <-. cbn [country_name capital].
  assert (Hopt : forall (t : option node) (x : str),
            option_map get_text_strip t = Some x -> trimmed x).
  { intros [t|] x; [|discriminate]. intros [= <-].
    apply get_text_strip_trimmed. }
  assert (Hor : forall x : option str,
            (forall y, x = Some y -> trimmed y) ->
            trimmed (or_empty x) /\ or_None x <> Some [] /\
            (forall c, or_None x = Some c -> trimmed c)).
  { intros [[|c s]|] H; cbn; repeat split; try discriminate;
      try (intros c0 [= <-]); try exact I; apply (H (c :: s) eq_refl). }
  split.
  - apply Hor.
    destruct (has_text (select_one card (by_class "country-name")));
      [apply Hopt|].
    destruct (Soup.name card =? "h3")%string; [|discriminate].
    intros y [= <-]. apply get_text_strip_trimmed.
  - apply Hor.
    destruct (has_text (select_one card (by_class "country-capital")));
      [apply Hopt|discriminate].
Qed.

Lemma scrape_countries_data_trimmed_witness :
  trimmed (country_name andorra_record) /\
  capital andorra_record <> Some [] /\
  (forall c, capital andorra_record = Some c -> trimmed c).
Proof.
  apply (scrape_countries_data_trimmed
           (Some (Tag "[document]" [] [andorra; block []])) 20
           [andorra_record; blank_record] andorra_record);
    [reflexivity|now left].
Defined.
